(** * Message filters and the run polling loop of the OpenAI utilities

    A shallow embedding of
    - [created_date_filter_openai_messages.py] ([parse_timestamp],
      [filter_messages], [main]),
    - [metadata_filtering_openai_messages.py]
      ([OpenAIMessageClient.get_messages], [_matches_metadata_filters]),
    - [thread_demo.py] ([wait_for_run_completion]),
    together with the properties the specification states about them.

    Python values are dynamically typed; the embedding keeps the dynamic
    types that the scripts can meet in a decoded JSON message and makes
    the exceptions that Python raises explicit in a [result] type. *)

From Stdlib Require Import ZArith Lia Ascii String.
From Stdlib Require Import Decimal DecimalString DecimalPos DecimalZ.
From ITree Require Import ITree Eq.Shallow.
From stdpp Require Import base gmap strings list pretty.

Local Open Scope string_scope.
Local Open Scope Z_scope.
Local Open Scope list_scope.

(** ** Python values and exceptions *)

(** The JSON values found in the fields the scripts read: [null], an
    integer, a string, or an object with string values (the [metadata]
    of a message).  Booleans, numbers with a fraction and arrays are
    outside the model. *)
Inductive value : Type :=
| VNone
| VInt (n : Z)
| VStr (s : string)
| VDict (d : gmap string string).

(** A message is a decoded JSON object, a Python [dict] with string keys. *)
Abbreviation message := (gmap string value).

(** A [requests.Response] as far as the scripts look at it: its status
    code, its text, and for [response.json()], a JSON object, the list
    under its ["data"] key when it has that key. *)
Record response : Type := Response {
  status_code : Z;
  text : string;
  json : option (list message)
}.

(** A [requests.exceptions.RequestException]: [str(e)] and the attribute
    [e.response], which is [None] or the response received. *)
Record request_exception : Type := RequestException {
  exc_str : string;
  exc_response : option response
}.

(** The exceptions the scripts meet; [OSError] stands for its subclasses
    too ([FileNotFoundError], [PermissionError], ...) and carries
    [str(e)]. *)
Inductive exn : Type :=
| TypeError
| KeyError
| ValueError
| OverflowError
| OSError (msg : string)
| RequestError (e : request_exception)
| SystemExit (code : Z)
| Exception (msg : string).

Inductive result (A : Type) : Type :=
| Ok (a : A)
| Raise (e : exn).
Arguments Ok {A} a.
Arguments Raise {A} e.

Definition rbind {A B : Type} (r : result A) (k : A -> result B) : result B :=
  match r with
  | Ok a => k a
  | Raise e => Raise e
  end.

Notation "'let*' x ':=' r 'in' k" := (rbind r (fun x => k))
  (at level 10, x name, r at level 100, k at level 200).

(** [d.get(key)]: the value under [key], and [None] when it is absent. *)
Definition dict_get (d : message) (key : string) : value :=
  match d !! key with
  | Some v => v
  | None => VNone
  end.

(** [a <= v] for an integer [a]: between integers the order of [Z];
    Python 3 raises [TypeError] when the right operand is [None], a
    string or a dict. *)
Definition int_le_value (a : Z) (v : value) : result bool :=
  match v with
  | VInt n => Ok (a <=? n)
  | _ => Raise TypeError
  end.

Definition value_le_int (v : value) (b : Z) : result bool :=
  match v with
  | VInt n => Ok (n <=? b)
  | _ => Raise TypeError
  end.

(** The chained comparison [a <= v <= b], that is [a <= v and v <= b]
    with [v] evaluated once and the second test only after the first
    one succeeded. *)
Definition chained_le (a : Z) (v : value) (b : Z) : result bool :=
  let* lo := int_le_value a v in
  if lo then value_le_int v b else Ok false.

(** ** Python strings *)

(** A string is the sequence of its characters; the characters below 128
    are the ASCII ones, and what the library does with a character
    depends on the Unicode database beyond them. *)
Definition is_ascii (c : ascii) : bool := (nat_of_ascii c <? 128)%nat.

Fixpoint ascii_only (s : string) : bool :=
  match s with
  | EmptyString => true
  | String c rest => is_ascii c && ascii_only rest
  end.

(** The ASCII characters that [str.isspace] and [str.strip] take for
    white space: tab to carriage return, the four separators 28 to 31,
    and the space. *)
Definition is_space (c : ascii) : bool :=
  let n := nat_of_ascii c in
  ((9 <=? n) && (n <=? 13) || (28 <=? n) && (n <=? 32))%nat.

(** The white space of [int()], C's [isspace]: tab to carriage return,
    and the space. *)
Definition int_space (c : ascii) : bool :=
  let n := nat_of_ascii c in
  ((9 <=? n) && (n <=? 13) || (n =? 32))%nat.

Definition is_digit (c : ascii) : bool :=
  let n := nat_of_ascii c in
  ((48 <=? n) && (n <=? 57))%nat.

(** Removing the characters [blank] accepts from the left end, from the
    right end, and from both. *)
Fixpoint lstrip (blank : ascii -> bool) (s : string) : string :=
  match s with
  | String c rest => if blank c then lstrip blank rest else s
  | EmptyString => EmptyString
  end.

Fixpoint rstrip (blank : ascii -> bool) (s : string) : string :=
  match s with
  | String c rest =>
      match rstrip blank rest with
      | EmptyString => if blank c then EmptyString else String c EmptyString
      | rest' => String c rest'
      end
  | EmptyString => EmptyString
  end.

Definition strip (blank : ascii -> bool) (s : string) : string :=
  rstrip blank (lstrip blank s).

(** [s.strip()]: on a string of ASCII characters the white space of
    [is_space] is removed from both ends; [strip_unicode] is what the
    library does on a string that has a character beyond ASCII, where
    the Unicode database tells the white space. *)
Definition str_strip (strip_unicode : string -> string) (s : string)
    : string :=
  if ascii_only s then strip is_space s else strip_unicode s.

(** The digits of a literal with its underscores removed; [digit_before]
    tells whether the previous character was a digit, which an
    underscore and the end of the literal both require. *)
Fixpoint digits_of (s : string) (digit_before : bool) : option uint :=
  match s with
  | EmptyString => if digit_before then Some Nil else None
  | String c rest =>
      if Ascii.eqb c "_"
      then if digit_before then digits_of rest false else None
      else uint_of_char c (digits_of rest true)
  end.

(** The number of digits that [int()] counts in a literal, and its test
    against the limit of the interpreter, which is made for more than
    640 digits only and for a limit that is not 0. *)
Fixpoint digit_count (s : string) : nat :=
  match s with
  | EmptyString => 0
  | String c rest => ((if is_digit c then 1 else 0) + digit_count rest)%nat
  end.

Definition too_many_digits (max_str_digits digits : nat) : bool :=
  ((640 <? digits) && (0 <? max_str_digits) && (max_str_digits <? digits))%nat.

(** ** created_date_filter_openai_messages.py *)

Module CreatedDateFilter.

(** The [for] loop of [filter_messages]; [filtered] is the list built so
    far, to which [filtered.append(message)] adds at the end. *)
Fixpoint filter_messages_loop (messages : list message)
    (start_timestamp end_timestamp : Z) (filtered : list message)
    : result (list message) :=
  match messages with
  | [] => Ok filtered
  | message :: rest =>
      let created_at := dict_get message "created_at" in
      match created_at with
      | VNone => filter_messages_loop rest start_timestamp end_timestamp filtered
      | _ =>
          let* keep := chained_le start_timestamp created_at end_timestamp in
          if keep
          then filter_messages_loop rest start_timestamp end_timestamp
                 (filtered ++ [message])
          else filter_messages_loop rest start_timestamp end_timestamp filtered
      end
  end.

Definition filter_messages (messages : list message)
    (start_timestamp end_timestamp : Z) : result (list message) :=
  filter_messages_loop messages start_timestamp end_timestamp [].

(** [int(s)] on a string of ASCII characters, as [PyLong_FromString]
    reads it in base 10: white space around the literal is skipped, one
    sign is allowed, and the digits may be grouped by single underscores
    that stand between two digits.  The literal is refused when it has
    more digits than the interpreter allows ([too_many_digits]).
    [None] is [ValueError]. *)
Definition int_ascii (max_str_digits : nat) (s : string) : option Z :=
  let literal := strip int_space s in
  let (negative, body) :=
    match literal with
    | String "-" body => (true, body)
    | String "+" body => (false, body)
    | body => (false, body)
    end in
  match digits_of body false with
  | Some d =>
      if too_many_digits max_str_digits (digit_count body) then None
      else Some (Z.of_int (if negative then Neg d else Pos d))
  | None => None
  end.

(** [s.replace(old, new)] for a one character [old]: every occurrence is
    replaced. *)
Fixpoint str_replace (old : ascii) (new : string) (s : string) : string :=
  match s with
  | EmptyString => EmptyString
  | String c rest =>
      if Ascii.eqb c old
      then new +:+ str_replace old new rest
      else String c (str_replace old new rest)
  end.

(** What the script writes: a JSON document to a file or to the standard
    output, or a line of text. *)
Inductive output : Type :=
| WriteJson (path : string) (data : list message) (count : nat)
| PrintJson (data : list message) (count : nat)
| PrintLine (line : string).

Record args : Type := Args {
  arg_start : string;
  arg_end : string;
  arg_input : option string;
  arg_output : option string;
  arg_api_key : option string
}.

Section Script.

(** The interpreter and its library:
    - [sys.get_int_max_str_digits()], which is 4300 unless it was
      changed, 0 standing for no limit;
    - [int(s)] for a string that has a character beyond ASCII, where the
      Unicode database tells the digits and the blanks;
    - [datetime.fromisoformat], with [None] where it raises
      [ValueError];
    - [int(dt.timestamp())], the epoch second of a parsed date, or the
      exception [dt.timestamp()] raises (for a date without offset the
      result depends on the local time zone, and a date out of the
      platform's range raises [ValueError] or [OverflowError]);
    - the block [with open(path, 'w') as f: json.dump(...)]: [None] when
      the file was written, [Some msg] when an [OSError] with that text
      was raised (a directory that does not exist, no permission). *)
Variable max_str_digits : nat.
Variable int_unicode : string -> option Z.
Variable datetime : Type.
Variable fromisoformat : string -> option datetime.
Variable timestamp : datetime -> result Z.
Variable write_file : string -> option string.

(** The messages [main] gets from [--input] or from the API; the failure
    of the API call ends in [sys.exit(1)]. *)
Variable load_messages : args -> result (list message).

(** [int(s)]; [None] is [ValueError]. *)
Definition py_int (s : string) : option Z :=
  if ascii_only s then int_ascii max_str_digits s else int_unicode s.

(** The exception raised in the handler of [ValueError], by
    [fromisoformat] or by [timestamp()], leaves the function. *)
Definition parse_timestamp (timestamp_str : string) : result Z :=
  match py_int timestamp_str with
  | Some n => Ok n
  | None =>
      match fromisoformat (str_replace "Z" "+00:00" timestamp_str) with
      | Some dt => timestamp dt
      | None => Raise ValueError
      end
  end.

(** [main] after argument parsing.  No [try] surrounds the two calls of
    [parse_timestamp], the filter, nor the writing of the file: an
    exception raised there leaves [main], which ends the script.  An
    empty [--output] is false in the [if], like a missing one. *)
Definition main (a : args) : result (list output) :=
  let* start_timestamp := parse_timestamp (arg_start a) in
  let* end_timestamp := parse_timestamp (arg_end a) in
  let* messages := load_messages a in
  let* filtered_messages := filter_messages messages start_timestamp end_timestamp in
  match arg_output a with
  | Some (String _ _ as path) =>
      match write_file path with
      | None =>
          Ok [WriteJson path filtered_messages (length filtered_messages);
              PrintLine ("Filtered " +:+ pretty (length filtered_messages)
                         +:+ " messages written to " +:+ path)]
      | Some msg => Raise (OSError msg)
      end
  | _ => Ok [PrintJson filtered_messages (length filtered_messages)]
  end.

End Script.

End CreatedDateFilter.

(** ** metadata_filtering_openai_messages.py *)

Module MetadataFilter.

(** The query parameters and what [get_messages] does to the outside:
    one HTTP GET, and lines printed. *)
Record params : Type := Params {
  limit : Z;
  order : string
}.

Inductive event : Type :=
| Get (url : string) (headers : list (string * string)) (query : params)
| Print (line : string).

Record OpenAIMessageClient : Type := Client {
  api_key : string;
  base_url : string;
  headers : list (string * string)
}.

(** [__init__]: [api_key or os.environ.get("OPENAI_API_KEY")], where an
    empty string counts as absent. *)
Definition str_or (a b : option string) : option string :=
  match a with
  | Some (String _ _) => a
  | _ => b
  end.

Definition __init__ (api_key environ_key : option string)
    : result OpenAIMessageClient :=
  match str_or api_key environ_key with
  | Some (String _ _ as key) =>
      Ok {| api_key := key;
            base_url := "https://api.openai.com/v1";
            headers := [("Authorization", "Bearer " +:+ key);
                        ("Content-Type", "application/json")] |}
  | _ => Raise ValueError
  end.

(** [key in s] for a string [s]: [key] occurs in [s]. *)
Fixpoint is_substring (key s : string) : bool :=
  String.prefix key s ||
  match s with
  | String _ rest => is_substring key rest
  | EmptyString => false
  end.

(** [key not in message_metadata] *)
Definition not_in (key : string) (message_metadata : value) : result bool :=
  match message_metadata with
  | VDict d => Ok (negb (bool_decide (is_Some (d !! key))))
  | VStr s => Ok (negb (is_substring key s))
  | VNone | VInt _ => Raise TypeError
  end.

(** [message_metadata[key]] *)
Definition getitem (message_metadata : value) (key : string) : result string :=
  match message_metadata with
  | VDict d =>
      match d !! key with
      | Some v => Ok v
      | None => Raise KeyError
      end
  | _ => Raise TypeError
  end.

(** The loop over [filters.items()], in the order of the dict, with its
    early [return False]. *)
Fixpoint _matches_metadata_filters (message_metadata : value)
    (filters : list (string * string)) : result bool :=
  match filters with
  | [] => Ok true
  | (key, value) :: rest =>
      let* missing := not_in key message_metadata in
      if missing then Ok false
      else
        let* found := getitem message_metadata key in
        if negb (String.eqb found value) then Ok false
        else _matches_metadata_filters message_metadata rest
  end.

(** [message.get("metadata", {})] *)
Definition get_metadata (message : message) : value :=
  match message !! "metadata" with
  | Some v => v
  | None => VDict ∅
  end.

(** The [for] loop of [get_messages] over the messages received. *)
Fixpoint filter_loop (messages : list message)
    (metadata_filters : list (string * string))
    (filtered_messages : list message) : result (list message) :=
  match messages with
  | [] => Ok filtered_messages
  | message :: rest =>
      let message_metadata := get_metadata message in
      let* keep := _matches_metadata_filters message_metadata metadata_filters in
      if keep
      then filter_loop rest metadata_filters (filtered_messages ++ [message])
      else filter_loop rest metadata_filters filtered_messages
  end.

(** The lines "Filter by metadata if specified": [metadata_filters] is
    [None] or a dict, given by its items; [None] and the empty dict are
    false in the [if]. *)
Definition filter_by_metadata (messages : list message)
    (metadata_filters : option (list (string * string)))
    : result (list message) :=
  match metadata_filters with
  | Some ((_ :: _) as filters) => filter_loop messages filters []
  | _ => Ok messages
  end.

Section Network.

(** [requests.get]: the response received, or the
    [requests.exceptions.RequestException] raised. *)
Variable requests_get :
  string -> list (string * string) -> params -> response + request_exception.

(** The text of the [HTTPError] that [raise_for_status] builds. *)
Variable http_error_msg : response -> string.

(** [response.raise_for_status()]: an [HTTPError] carrying the response
    for a status code from 400 to 599. *)
Definition raise_for_status (r : response) : result unit :=
  if (400 <=? status_code r) && (status_code r <? 600)
  then Raise (RequestError {| exc_str := http_error_msg r;
                              exc_response := Some r |})
  else Ok tt.

(** The truth value of a response in a condition: [Response.__bool__]
    is [Response.ok], which is false exactly when [raise_for_status]
    raises. *)
Definition response_bool (r : response) : bool :=
  match raise_for_status r with
  | Ok _ => true
  | Raise _ => false
  end.

(** The body of the [try]. *)
Definition get_messages_try (self : OpenAIMessageClient) (url : string)
    (query : params) (metadata_filters : option (list (string * string)))
    : result (list message) :=
  let* response :=
    match requests_get url (headers self) query with
    | inl r => Ok r
    | inr e => Raise (RequestError e)
    end in
  let* _ := raise_for_status response in
  let messages := default [] (json response) in
  filter_by_metadata messages metadata_filters.

(** The [except requests.exceptions.RequestException] clause.  Every
    such exception has the attribute [response]; the test that remains
    is the truth value of [e.response], false for [None]. *)
Definition get_messages_except (e : request_exception) : list event :=
  Print ("Error retrieving messages: " +:+ exc_str e) ::
  match exc_response e with
  | Some r =>
      if response_bool r
      then [Print ("Response status: " +:+ pretty (status_code r));
            Print ("Response body: " +:+ text r)]
      else []
  | None => []
  end.

Definition get_messages (self : OpenAIMessageClient) (thread_id : string)
    (metadata_filters : option (list (string * string)))
    (limit : Z) (order : string) : list event * result (list message) :=
  let url := base_url self +:+ "/threads/" +:+ thread_id +:+ "/messages" in
  let query := {| limit := Z.min 100 (Z.max 1 limit); order := order |} in
  match get_messages_try self url query metadata_filters with
  | Raise (RequestError e) =>
      (Get url (headers self) query :: get_messages_except e, Ok [])
  | r => ([Get url (headers self) query], r)
  end.

End Network.

End MetadataFilter.

(** ** thread_demo.py *)

Module ThreadDemo.

(** A run as the driver sees it. *)
Record run : Type := Run {
  id : string;
  status : string
}.

(** What the driver asks of its environment: the retrieval of the run
    from the API (taken to answer with a run), a line on the standard
    output, [time.sleep]. *)
Variant driverE : Type -> Type :=
| Retrieve (thread_id run_id : string) : driverE run
| Print (line : string) : driverE unit
| Sleep (seconds : Z) : driverE unit.

(** The body of the loop after the retrieval of the run: [inr] leaves
    the loop, by [return] or by [raise], [inl] goes round again. *)
Definition react : run -> itree driverE (unit + result run) := fun run =>
  if String.eqb (status run) "completed" then Ret (inr (Ok run))
  else if existsb (String.eqb (status run)) ["failed"; "cancelled"; "expired"]
  then Ret (inr (Raise (Exception ("Run ended with status: " +:+ status run))))
  else
    ITree.bind (ITree.trigger
      (Print ("Waiting for run to complete. Current status: " +:+ status run)))
      (fun _ => ITree.bind (ITree.trigger (Sleep 2)) (fun _ => Ret (inl tt))).

(** One turn of the [while True] loop. *)
Definition poll (thread_id run_id : string) (_ : unit)
    : itree driverE (unit + result run) :=
  ITree.bind (ITree.trigger (Retrieve thread_id run_id)) react.

Definition wait_for_run_completion (thread_id run_id : string)
    : itree driverE (result run) :=
  ITree.iter (poll thread_id run_id) tt.

(** What [ITree.iter] does with the answer of one turn: a silent step
    before the next turn, or the end of the loop. *)
Definition loop_back (thread_id run_id : string) (lr : unit + result run)
    : itree driverE (result run) :=
  match lr with
  | inl l => Tau (ITree.iter (poll thread_id run_id) l)
  | inr r => Ret r
  end.

(** The environment: [observed k] is the run that the API returns at the
    retrieval number [k]; a world counts the retrievals made and records
    what was printed and slept. *)
Inductive effect : Type :=
| Printed (line : string)
| Slept (seconds : Z).

Record world : Type := World {
  retrievals : nat;
  effects : list effect
}.

Definition retrieved (w : world) : world :=
  {| retrievals := S (retrievals w); effects := effects w |}.

Definition told (line : string) (w : world) : world :=
  {| retrievals := retrievals w; effects := effects w ++ [Printed line] |}.

Definition slept (seconds : Z) (w : world) : world :=
  {| retrievals := retrievals w; effects := effects w ++ [Slept seconds] |}.

Definition handle (observed : nat -> run) {T : Type} (e : driverE T)
    (w : world) : world * T :=
  match e with
  | Retrieve _ _ => (retrieved w, observed (retrievals w))
  | Print line => (told line w, tt)
  | Sleep seconds => (slept seconds w, tt)
  end.

(** Running a program for at most [fuel] steps: [Some r] when it ended
    with [r], [None] when it is still running. *)
Fixpoint exec (observed : nat -> run) {R : Type} (fuel : nat)
    (t : itree driverE R) (w : world) : world * option R :=
  match fuel with
  | O => (w, None)
  | S fuel' =>
      match observe t with
      | RetF r => (w, Some r)
      | TauF t' => exec observed fuel' t' w
      | VisF e k =>
          let (w', x) := handle observed e w in
          exec observed fuel' (k x) w'
      end
  end.

End ThreadDemo.

(** ** created_date_filter_openai_messages.py: where the messages come from *)

Module CreatedDateSource.

(** What the script does to the outside before it filters: one HTTP GET,
    and a line on the standard error. *)
Inductive io : Type :=
| Request (url : string) (headers : list (string * string))
| Stderr (line : string).

Section Source.

(** [os.environ.get("OPENAI_API_KEY")], [requests.get(url, headers=...)],
    the text of an [HTTPError], [str(e)] of an exception, and
    [json.load] of the file of [--input] with the unwrapping of its
    ["data"] entry. *)
Variable environ_key : option string.
Variable requests_get :
  string -> list (string * string) -> response + request_exception.
Variable http_error_msg : response -> string.
Variable str_exn : exn -> string.
Variable json_load : string -> result (list message).

Definition get_messages_from_api (api_key : option string)
    : list io * result (list message) :=
  let api_key :=
    match api_key with
    | None => environ_key
    | Some _ => api_key
    end in
  match api_key with
  | Some (String _ _ as key) =>
      let headers := [("Authorization", "Bearer " +:+ key);
                      ("Content-Type", "application/json")] in
      let url := "https://api.openai.com/v1/messages" in
      ([Request url headers],
       let* response :=
         match requests_get url headers with
         | inl r => Ok r
         | inr e => Raise (RequestError e)
         end in
       let* _ := MetadataFilter.raise_for_status http_error_msg response in
       Ok (default [] (json response)))
  | _ => ([], Raise ValueError)
  end.

(** The lines "Get messages from file or API" of [main]: a non-empty
    [--input] is read, otherwise the API is asked, and an [Exception]
    raised there is reported on the standard error before
    [sys.exit(1)]. *)
Definition load_messages (a : CreatedDateFilter.args)
    : list io * result (list message) :=
  match CreatedDateFilter.arg_input a with
  | Some (String _ _ as path) => ([], json_load path)
  | _ =>
      match get_messages_from_api (CreatedDateFilter.arg_api_key a) with
      | (sent, Raise (SystemExit code)) => (sent, Raise (SystemExit code))
      | (sent, Raise e) =>
          (sent ++ [Stderr ("Error fetching messages from API: " +:+ str_exn e)],
           Raise (SystemExit 1))
      | (sent, Ok messages) => (sent, Ok messages)
      end
  end.

End Source.

End CreatedDateSource.

(** ** metadata_filtering_openai_messages.py: the command line *)

Module MetadataMain.

Record args : Type := Args {
  arg_thread_id : string;
  arg_api_key : option string;
  arg_metadata : option (list string);
  arg_limit : Z;
  arg_output : option string;
  arg_order : string
}.

(** [sep in s] and [s.split(sep, 1)]: [None] when [sep] does not occur,
    otherwise what stands before and after its first occurrence. *)
Fixpoint split_once (sep : ascii) (s : string) : option (string * string) :=
  match s with
  | EmptyString => None
  | String c rest =>
      if Ascii.eqb c sep then Some (EmptyString, rest)
      else
        match split_once sep rest with
        | Some (before, after) => Some (String c before, after)
        | None => None
        end
  end.

(** [d[key] = value] on the items of a dict: a key already there keeps
    its place and takes the new value, a new key goes to the end. *)
Fixpoint dict_set (d : list (string * string)) (key value : string)
    : list (string * string) :=
  match d with
  | [] => [(key, value)]
  | (k, v) :: rest =>
      if String.eqb k key then (k, value) :: rest
      else (k, v) :: dict_set rest key value
  end.

(** What [main] does to the outside: the events of [get_messages], its
    own printed lines, and the JSON file of the export. *)
Inductive effect : Type :=
| Event (e : MetadataFilter.event)
| WriteJson (path : string) (data : list message).

Definition say (line : string) : effect :=
  Event (MetadataFilter.Print line).

Section Main.

(** [str.strip] beyond ASCII, [os.environ.get("OPENAI_API_KEY")], the
    network of [get_messages], [str(e)] of an exception,
    [datetime.now().strftime("%Y%m%d_%H%M%S")], and the block
    [with open(output_file, 'w') as f: json.dump(...)]: [None] when the
    file was written, [Some msg] when an [OSError] with that text was
    raised. *)
Variable strip_unicode : string -> string.
Variable environ_key : option string.
Variable requests_get :
  string -> list (string * string) -> MetadataFilter.params ->
  response + request_exception.
Variable http_error_msg : response -> string.
Variable str_exn : exn -> string.
Variable now : string.
Variable write_file : string -> option string.

(** The loop over [args.metadata]. *)
Fixpoint parse_loop (metadata : list string)
    (metadata_filters : list (string * string)) : list (string * string) :=
  match metadata with
  | [] => metadata_filters
  | filter_str :: rest =>
      match split_once "=" filter_str with
      | Some (key, value) =>
          parse_loop rest
            (dict_set metadata_filters
               (str_strip strip_unicode key) (str_strip strip_unicode value))
      | None => parse_loop rest metadata_filters
      end
  end.

Definition parse_metadata (metadata : option (list string))
    : list (string * string) :=
  match metadata with
  | Some items => parse_loop items []
  | None => []
  end.

Definition export_messages_to_json (messages : list message)
    (output_file : option string) : list effect * result string :=
  let output_file :=
    match output_file with
    | Some (String _ _ as path) => path
    | _ => "openai_messages_" +:+ now +:+ ".json"
    end in
  match write_file output_file with
  | None =>
      ([WriteJson output_file messages;
        say ("Exported " +:+ pretty (length messages) +:+ " messages to "
             +:+ output_file)],
       Ok output_file)
  | Some msg => ([], Raise (OSError msg))
  end.

(** The [try] of [main]: [except Exception] takes what [__init__],
    [get_messages] and the export raise. *)
Definition main (a : args) : list effect :=
  let metadata_filters := parse_metadata (arg_metadata a) in
  match MetadataFilter.__init__ (arg_api_key a) environ_key with
  | Raise e => [say ("Error: " +:+ str_exn e)]
  | Ok client =>
      let (events, outcome) :=
        MetadataFilter.get_messages requests_get http_error_msg client
          (arg_thread_id a) (Some metadata_filters) (arg_limit a)
          (arg_order a) in
      map Event events ++
      match outcome with
      | Raise e => [say ("Error: " +:+ str_exn e)]
      | Ok [] => [say "No messages found matching the criteria"]
      | Ok messages =>
          match export_messages_to_json messages (arg_output a) with
          | (written, Ok _) =>
              written ++
              [say ("Successfully retrieved " +:+ pretty (length messages)
                    +:+ " messages")]
          | (written, Raise e) => written ++ [say ("Error: " +:+ str_exn e)]
          end
      end
  end.

End Main.

End MetadataMain.

(** ** thread_demo.py: the transcript *)

Module ThreadTranscript.

(** A block of content either has a [text] attribute, with its value,
    or is shown by [str]. *)
Inductive block : Type :=
| Text (value : string)
| Other (str : string).

Record thread_message : Type := ThreadMessage {
  role : string;
  content : list block
}.

(** [s.upper()] on ASCII letters. *)
Definition upper_char (c : ascii) : ascii :=
  let n := nat_of_ascii c in
  if ((97 <=? n) && (n <=? 122))%nat then ascii_of_nat (n - 32) else c.

Fixpoint upper (s : string) : string :=
  match s with
  | EmptyString => EmptyString
  | String c rest => String (upper_char c) (upper rest)
  end.

Inductive outcome : Type :=
| Returned
| IndexError.

(** The loop of [display_message_data] over the reversed list;
    [message.content[0]] raises [IndexError] on an empty content. *)
Fixpoint display_loop (messages : list thread_message)
    : list string * outcome :=
  match messages with
  | [] => ([], Returned)
  | message :: rest =>
      match content message with
      | [] => ([], IndexError)
      | first :: _ =>
          let text :=
            match first with
            | Text value => value
            | Other str => str
            end in
          let (lines, out) := display_loop rest in
          ((upper (role message) +:+ ": " +:+ text) :: lines, out)
      end
  end.

Definition display_message_data (data : list thread_message)
    : list string * outcome :=
  display_loop (rev data).

End ThreadTranscript.

(** ** The words of the specification *)

(** The data model gives a message an integer [created_at] and an
    optional [metadata] mapping; a decoded message may also lack
    [created_at] or carry [null] there. *)
Definition created_at_typed (m : message) : bool :=
  match m !! "created_at" with
  | None | Some VNone | Some (VInt _) => true
  | Some _ => false
  end.

Definition metadata_typed (m : message) : bool :=
  match m !! "metadata" with
  | None | Some (VDict _) => true
  | Some _ => false
  end.

(** [created_at] is present and lies between the two bounds, both
    included. *)
Definition created_within (start_timestamp end_timestamp : Z) (m : message)
    : bool :=
  match m !! "created_at" with
  | Some (VInt t) => (start_timestamp <=? t) && (t <=? end_timestamp)
  | _ => false
  end.

(** The bounds cover all time: no timestamp of the list lies outside. *)
Definition covers_all (start_timestamp end_timestamp : Z)
    (messages : list message) : Prop :=
  forall m t, m ∈ messages -> m !! "created_at" = Some (VInt t) ->
    start_timestamp <= t <= end_timestamp.

Definition has_timestamp (m : message) : bool :=
  match m !! "created_at" with
  | Some (VInt _) => true
  | _ => false
  end.

(** The metadata mapping of a message, empty when it has none. *)
Definition metadata_of (m : message) : gmap string string :=
  match m !! "metadata" with
  | Some (VDict d) => d
  | _ => ∅
  end.

(** Every constraint key is in the metadata with the required value. *)
Definition meets (filters : list (string * string)) (m : message) : bool :=
  forallb (fun kv => bool_decide (metadata_of m !! kv.1 = Some kv.2)) filters.

(** The states of a run: [completed] is the success, three states are
    unrecoverable, every other one (queued, in progress) is pending. *)
Definition completed (r : ThreadDemo.run) : Prop :=
  ThreadDemo.status r = "completed".

Definition unrecoverable (r : ThreadDemo.run) : Prop :=
  ThreadDemo.status r ∈ ["failed"; "cancelled"; "expired"].

Definition pending (r : ThreadDemo.run) : Prop :=
  ~ completed r /\ ~ unrecoverable r.

(** What the driver prints and sleeps while it meets the pending runs
    observed from the retrieval [from] on, [n] of them. *)
Fixpoint waiting (observed : nat -> ThreadDemo.run) (from n : nat)
    : list ThreadDemo.effect :=
  match n with
  | O => []
  | S n' =>
      ThreadDemo.Printed ("Waiting for run to complete. Current status: "
                          +:+ ThreadDemo.status (observed from))
      :: ThreadDemo.Slept 2 :: waiting observed (S from) n'
  end.

(** A run that is queued, then in progress, then completed. *)
Definition sample_runs (k : nat) : ThreadDemo.run :=
  match k with
  | O => {| ThreadDemo.id := "run_1"; ThreadDemo.status := "queued" |}
  | S O => {| ThreadDemo.id := "run_1"; ThreadDemo.status := "in_progress" |}
  | _ => {| ThreadDemo.id := "run_1"; ThreadDemo.status := "completed" |}
  end.

(** [str(n)], the decimal text of an integer. *)
Definition decimal (n : Z) : string := NilZero.string_of_int (Z.to_int n).

(** A literal that the limit on the digits of [int()] lets through:
    there is no limit, or the literal is too short for the test, or it
    has no more digits than the limit. *)
Definition within_limit (max_str_digits : nat) (s : string) : Prop :=
  (max_str_digits = 0 \/ digit_count s <= 640 \/
   digit_count s <= max_str_digits)%nat.

(** The text of 4301 digits [1] and the digits it is made of. *)
Fixpoint ones (n : nat) : string :=
  match n with
  | O => EmptyString
  | S n => String "1" (ones n)
  end.

Fixpoint ones_digits (n : nat) : uint :=
  match n with
  | O => Nil
  | S n => D1 (ones_digits n)
  end.

Definition long_literal : string := ones 4301.
Definition long_digits : uint := ones_digits 4301.

(** An ISO parser that knows one date, the first of April 2023 in
    UTC. *)
Definition april_first (s : string) : option unit :=
  if String.eqb s "2023-04-01T00:00:00+00:00" then Some tt else None.

(** The key that [get_messages_from_api] ends up with, the request it
    sends with a key, and a command line without [--input]. *)
Definition effective_key (environ_key api_key : option string)
    : option string :=
  match api_key with
  | None => environ_key
  | Some _ => api_key
  end.

Definition api_request (key : string) : CreatedDateSource.io :=
  CreatedDateSource.Request "https://api.openai.com/v1/messages"
    [("Authorization", "Bearer " +:+ key);
     ("Content-Type", "application/json")].

Definition no_input (a : CreatedDateFilter.args) : Prop :=
  CreatedDateFilter.arg_input a = None \/
  CreatedDateFilter.arg_input a = Some "".

(** A command line with the bounds 150 and 300 and nothing else, and
    servers for it: one that cannot be reached, one that answers with
    the three messages of the timestamp example. *)
Definition bounds_only : CreatedDateFilter.args :=
  {| CreatedDateFilter.arg_start := "150";
     CreatedDateFilter.arg_end := "300";
     CreatedDateFilter.arg_input := None;
     CreatedDateFilter.arg_output := None;
     CreatedDateFilter.arg_api_key := None |}.

Definition unreachable (url : string) (headers : list (string * string))
    : response + request_exception :=
  inr {| exc_str := "Connection refused"; exc_response := None |}.

Definition three_messages : list message :=
  [{[ "created_at" := VInt 100 ]}; {[ "created_at" := VInt 200 ]};
   {[ "created_at" := VInt 300 ]}].

Definition listing (url : string) (headers : list (string * string))
    : response + request_exception :=
  inl {| status_code := 200; text := ""; json := Some three_messages |}.

Definition exn_name (e : exn) : string :=
  match e with
  | TypeError => "TypeError"
  | KeyError => "KeyError"
  | ValueError => "ValueError"
  | OverflowError => "OverflowError"
  | OSError msg => msg
  | RequestError r => exc_str r
  | SystemExit _ => "SystemExit"
  | Exception msg => msg
  end.

(** A message whose metadata is [null]. *)
Definition null_metadata : message := {[ "metadata" := VNone ]}.

(** The client that [__init__] builds for a key. *)
Definition client_of (key : string) : MetadataFilter.OpenAIMessageClient :=
  {| MetadataFilter.api_key := key;
     MetadataFilter.base_url := "https://api.openai.com/v1";
     MetadataFilter.headers := [("Authorization", "Bearer " +:+ key);
                                ("Content-Type", "application/json")] |}.

(** The command line argument that sets [key] to [value]. *)
Definition assignment (kv : string * string) : string :=
  kv.1 +:+ String "=" kv.2.

(** The file that [export_messages_to_json] writes for a command line:
    its [--output] when that is given and not empty, otherwise a name
    made from the time. *)
Definition export_path (now : string) (a : MetadataMain.args) : string :=
  match MetadataMain.arg_output a with
  | Some (String _ _ as path) => path
  | _ => "openai_messages_" +:+ now +:+ ".json"
  end.

(** A command line for the thread [thread_1] with one constraint. *)
Definition one_constraint : MetadataMain.args :=
  {| MetadataMain.arg_thread_id := "thread_1";
     MetadataMain.arg_api_key := Some "sk-demo";
     MetadataMain.arg_metadata := Some ["user_email=a@b.com"];
     MetadataMain.arg_limit := 100;
     MetadataMain.arg_output := None;
     MetadataMain.arg_order := "desc" |}.

(** The seconds slept among the effects of the driver. *)
Fixpoint total_sleep (effects : list ThreadDemo.effect) : Z :=
  match effects with
  | [] => 0
  | ThreadDemo.Slept seconds :: rest => seconds + total_sleep rest
  | ThreadDemo.Printed _ :: rest => total_sleep rest
  end.

(** A run that stays in progress. *)
Definition stuck_runs (k : nat) : ThreadDemo.run :=
  {| ThreadDemo.id := "run_1"; ThreadDemo.status := "in_progress" |}.

(** The line of the transcript for a message with content. *)
Definition first_text (m : ThreadTranscript.thread_message) : string :=
  match ThreadTranscript.content m with
  | ThreadTranscript.Text value :: _ => value
  | ThreadTranscript.Other str :: _ => str
  | [] => ""
  end.

Definition transcript_line (m : ThreadTranscript.thread_message) : string :=
  ThreadTranscript.upper (ThreadTranscript.role m) +:+ ": " +:+ first_text m.

Definition has_content (m : ThreadTranscript.thread_message) : bool :=
  match ThreadTranscript.content m with
  | [] => false
  | _ :: _ => true
  end.

(** A question, its answer, and a message without content. *)
Definition question : ThreadTranscript.thread_message :=
  {| ThreadTranscript.role := "user";
     ThreadTranscript.content := [ThreadTranscript.Text "How long?"] |}.

Definition answer : ThreadTranscript.thread_message :=
  {| ThreadTranscript.role := "assistant";
     ThreadTranscript.content := [ThreadTranscript.Text "Ten years."] |}.

Definition hollow : ThreadTranscript.thread_message :=
  {| ThreadTranscript.role := "assistant"; ThreadTranscript.content := [] |}.

(** A string made of the white space of [int()] only. *)
Fixpoint blank (s : string) : bool :=
  match s with
  | EmptyString => true
  | String c rest => int_space c && blank rest
  end.

(** The character [c] occurs in [s]. *)
Fixpoint occurs (c : ascii) (s : string) : bool :=
  match s with
  | EmptyString => false
  | String c' rest => Ascii.eqb c' c || occurs c rest
  end.

(** The messages of the examples. *)
Definition created (t : Z) : message := {[ "created_at" := VInt t ]}.
Definition tagged (d : gmap string string) : message := {[ "metadata" := VDict d ]}.
Definition no_timestamp : message := {[ "id" := VStr "msg_1" ]}.

(** The address and the query of the request of [get_messages]. *)
Definition messages_url (self : MetadataFilter.OpenAIMessageClient)
    (thread_id : string) : string :=
  MetadataFilter.base_url self +:+ "/threads/" +:+ thread_id +:+ "/messages".

Definition sent_params (limit : Z) (order : string) : MetadataFilter.params :=
  {| MetadataFilter.limit := Z.min 100 (Z.max 1 limit);
     MetadataFilter.order := order |}.

(** A client, and a server that answers every request with 404. *)
Definition demo_client : MetadataFilter.OpenAIMessageClient :=
  {| MetadataFilter.api_key := "sk-demo";
     MetadataFilter.base_url := "https://api.openai.com/v1";
     MetadataFilter.headers := [("Authorization", "Bearer sk-demo");
                                ("Content-Type", "application/json")] |}.

Definition not_found : response :=
  {| status_code := 404; text := "No thread found"; json := None |}.

Definition refusing_server (url : string) (headers : list (string * string))
    (query : MetadataFilter.params) : response + request_exception :=
  inl not_found.

Definition client_error_msg (r : response) : string :=
  pretty (status_code r) +:+ " Client Error".

(** A server that answers with the two messages of the metadata
    example. *)
Definition two_messages : list message :=
  [tagged {[ "user_email" := "a@b.com" ]}; tagged ∅].

Definition answering_server (url : string) (headers : list (string * string))
    (query : MetadataFilter.params) : response + request_exception :=
  inl {| status_code := 200; text := ""; json := Some two_messages |}.

(** ** Lists filtered by a test *)

Section ListFilter.
Context {A : Type}.
Implicit Types (f g : A -> bool) (l : list A).

Lemma sublist_list_filter f l : sublist (List.filter f l) l.
Proof.
  induction l as [|x l IH]; simpl.
  - constructor.
  - destruct (f x); by constructor.
Qed.

Lemma elem_of_list_filter f l (x : A) :
  x ∈ List.filter f l <-> x ∈ l /\ f x = true.
Proof. rewrite !list_elem_of_In. apply filter_In. Qed.

Lemma list_filter_all f l :
  (forall x, x ∈ l -> f x = true) -> List.filter f l = l.
Proof.
  induction l as [|x l IH]; intros H; simpl; [done|].
  rewrite (H x) by constructor.
  f_equal. apply IH. intros y Hy. apply H. by constructor.
Qed.

Lemma sublist_list_filter_impl f g l :
  (forall x, g x = true -> f x = true) ->
  sublist (List.filter g l) (List.filter f l).
Proof.
  intros Himpl. induction l as [|x l IH]; simpl; [constructor|].
  destruct (g x) eqn:Hg.
  - rewrite (Himpl x Hg). by constructor.
  - destruct (f x); [by constructor | done].
Qed.

End ListFilter.

(** ** The timestamp filter *)

Section CreatedDateFilterFacts.
Import CreatedDateFilter.

Lemma chained_le_int (a t b : Z) :
  chained_le a (VInt t) b = Ok ((a <=? t) && (t <=? b)).
Proof. unfold chained_le; simpl. by destruct (a <=? t). Qed.

(** The loop appends the retained messages to the list it was given, and
    raises [TypeError] when one [created_at] is neither absent, null nor
    an integer. *)
Lemma filter_messages_loop_eq (messages : list message) (s e : Z)
    (filtered : list message) :
  filter_messages_loop messages s e filtered =
  if forallb created_at_typed messages
  then Ok (filtered ++ List.filter (created_within s e) messages)
  else Raise TypeError.
Proof.
  revert filtered.
  induction messages as [|m rest IH]; intros filtered.
  - simpl. by rewrite app_nil_r.
  - cbn [filter_messages_loop forallb List.filter]. rewrite !IH.
    destruct (forallb created_at_typed rest);
      unfold dict_get, created_at_typed, created_within;
      destruct (m !! "created_at") as [[| t | str | d]|];
      rewrite ?chained_le_int; simpl; try done.
    + destruct ((s <=? t) && (t <=? e)); [|done].
      by rewrite <- app_assoc.
    + by destruct ((s <=? t) && (t <=? e)).
Qed.

Lemma filter_messages_eq (messages : list message) (s e : Z) :
  filter_messages messages s e =
  if forallb created_at_typed messages
  then Ok (List.filter (created_within s e) messages)
  else Raise TypeError.
Proof. unfold filter_messages. by rewrite filter_messages_loop_eq. Qed.

Lemma created_within_spec (s e : Z) (m : message) :
  created_within s e m = true <->
  exists t, m !! "created_at" = Some (VInt t) /\ s <= t <= e.
Proof.
  unfold created_within. split.
  - destruct (m !! "created_at") as [[| t | |]|]; try done.
    intros H. exists t. split; [done | lia].
  - intros (t & -> & H). apply andb_true_intro. lia.
Qed.

End CreatedDateFilterFacts.

Section CreatedDateFilterClaims.
Import CreatedDateFilter.

(** C1. On messages whose [created_at], when present, is an integer (or
    null), [filter_messages] returns exactly the messages with a
    [created_at] between [start] and [end], both bounds included, in the
    order of the input; whatever the messages, a list it returns is that
    one; on the example of the specification it returns the messages of
    200 and 300. *)
Theorem filter_messages_in_range :
  (forall (messages : list message) (s e : Z) (kept : list message),
      filter_messages messages s e = Ok kept ->
      kept = List.filter (created_within s e) messages) /\
  (forall (messages : list message) (s e : Z),
      forallb created_at_typed messages = true ->
      exists kept,
        filter_messages messages s e = Ok kept /\
        kept = List.filter (created_within s e) messages /\
        sublist kept messages /\
        forall m, m ∈ kept <->
          m ∈ messages /\
          exists t, m !! "created_at" = Some (VInt t) /\ s <= t <= e) /\
  filter_messages [created 100; created 200; created 300] 150 300
  = Ok [created 200; created 300].
Proof.
  split; [|split].
  - intros messages s e kept. rewrite filter_messages_eq.
    destruct (forallb created_at_typed messages); [|done]. by intros [= <-].
  - intros messages s e Htyped.
    exists (List.filter (created_within s e) messages).
    rewrite filter_messages_eq, Htyped.
    split; [done|]. split; [done|]. split; [apply sublist_list_filter|].
    intros m. rewrite elem_of_list_filter, created_within_spec. done.
  - reflexivity.
Qed.

Lemma filter_messages_in_range_witness :
  forallb created_at_typed [created 100; no_timestamp; created 300] = true /\
  exists kept,
    filter_messages [created 100; no_timestamp; created 300] 100 250 = Ok kept /\
    kept = [created 100].
Proof.
  split; [reflexivity|].
  destruct (proj1 (proj2 filter_messages_in_range)
              [created 100; no_timestamp; created 300] 100 250 eq_refl)
    as (kept & Hrun & Hkept & _).
  exists kept. split; [exact Hrun | exact Hkept].
Defined.

(** C2. A message whose [created_at] is absent or null is left out by
    the timestamp filter whatever the bounds, and raises nothing: alone
    it gives the empty list, inside a list the filter behaves as if the
    message were not there, and no result contains it. *)
Theorem filter_messages_skips_missing (m : message) (s e : Z) :
  m !! "created_at" = None \/ m !! "created_at" = Some VNone ->
  filter_messages [m] s e = Ok [] /\
  (forall before after,
      filter_messages (before ++ m :: after) s e
      = filter_messages (before ++ after) s e) /\
  (forall messages kept,
      filter_messages messages s e = Ok kept -> m ∉ kept).
Proof.
  intros Hm.
  assert (Htyped : created_at_typed m = true).
  { unfold created_at_typed. by destruct Hm as [-> | ->]. }
  assert (Hout : created_within s e m = false).
  { unfold created_within. by destruct Hm as [-> | ->]. }
  split; [|split].
  - rewrite filter_messages_eq. simpl. by rewrite Htyped, Hout.
  - intros before after. rewrite !filter_messages_eq.
    rewrite !forallb_app, !List.filter_app. simpl.
    by rewrite Htyped, Hout.
  - intros messages kept. rewrite filter_messages_eq.
    destruct (forallb created_at_typed messages); [|done].
    intros [= <-]. intros [_ Hin]%elem_of_list_filter. congruence.
Qed.

Lemma filter_messages_skips_missing_witness :
  filter_messages [no_timestamp] 0 100 = Ok [] /\
  filter_messages ([created 5] ++ no_timestamp :: [created 7]) 0 100
  = filter_messages ([created 5] ++ [created 7]) 0 100.
Proof.
  destruct (filter_messages_skips_missing no_timestamp 0 100 (or_introl eq_refl))
    as (Halone & Hinside & _).
  split; [exact Halone | exact (Hinside [created 5] [created 7])].
Defined.

End CreatedDateFilterClaims.

(** ** Parsing the bounds *)

Section ParseTimestampFacts.
Import CreatedDateFilter.

(** A decimal digit is an ASCII character that is neither white space,
    nor a sign, nor an underscore. *)
Lemma digit_char (c : ascii) (d d' : uint) :
  uint_of_char c (Some d) = Some d' ->
  int_space c = false /\ Ascii.eqb c "_" = false /\
  Ascii.eqb c "-" = false /\ Ascii.eqb c "+" = false /\
  is_digit c = true /\ is_ascii c = true.
Proof.
  intros H. apply uint_of_char_spec in H.
  destruct H as [[-> _]|[[-> _]|[[-> _]|[[-> _]|[[-> _]|
                [[-> _]|[[-> _]|[[-> _]|[[-> _]|[-> _]]]]]]]]]]; done.
Qed.

Lemma uint_of_char_Some (c : ascii) (o : option uint) (d' : uint) :
  uint_of_char c o = Some d' -> exists d, o = Some d.
Proof. destruct o as [d|]; [by exists d | done]. Qed.

Lemma rstrip_digits (s : string) (d : uint) :
  NilEmpty.uint_of_string s = Some d -> rstrip int_space s = s.
Proof.
  revert d. induction s as [|c rest IH]; intros d H; [done|].
  simpl in H. destruct (uint_of_char_Some _ _ _ H) as [d0 Hrest].
  rewrite Hrest in H. apply digit_char in H as (Hsp & _).
  simpl. rewrite (IH d0 Hrest).
  destruct rest; [by rewrite Hsp | done].
Qed.

Lemma ascii_only_digits (s : string) (d : uint) :
  NilEmpty.uint_of_string s = Some d -> ascii_only s = true.
Proof.
  revert d. induction s as [|c rest IH]; intros d H; [done|].
  simpl in H. destruct (uint_of_char_Some _ _ _ H) as [d0 Hrest].
  rewrite Hrest in H. apply digit_char in H as (_ & _ & _ & _ & _ & Hc).
  cbn [ascii_only]. by rewrite Hc, (IH d0 Hrest).
Qed.

Lemma digits_of_digits (s : string) (d : uint) :
  NilEmpty.uint_of_string s = Some d -> digits_of s true = Some d.
Proof.
  revert d. induction s as [|c rest IH]; intros d H; [done|].
  simpl in H. destruct (uint_of_char_Some _ _ _ H) as [d0 Hrest].
  simpl. rewrite (IH d0 Hrest). rewrite Hrest in H.
  destruct (digit_char _ _ _ H) as (_ & -> & _). done.
Qed.

Lemma digits_of_literal (s : string) (d : uint) :
  NilZero.uint_of_string s = Some d -> digits_of s false = Some d.
Proof.
  destruct s as [|c rest]; [done|]. simpl. intros H.
  destruct (uint_of_char_Some _ _ _ H) as [d0 Hrest].
  rewrite (digits_of_digits _ _ Hrest). rewrite Hrest in H.
  destruct (digit_char _ _ _ H) as (_ & -> & _). done.
Qed.

Lemma rstrip_literal (s : string) (u : uint) :
  NilZero.uint_of_string s = Some u -> rstrip int_space s = s.
Proof. destruct s; [done|]. apply rstrip_digits. Qed.

Lemma ascii_only_literal (s : string) (u : uint) :
  NilZero.uint_of_string s = Some u -> ascii_only s = true.
Proof. destruct s; [done|]. apply ascii_only_digits. Qed.

(** A decimal literal, an optional minus sign before at least one digit,
    is made of ASCII characters. *)
Lemma ascii_only_decimal (s : string) (d : Decimal.int) :
  NilZero.int_of_string s = Some d -> ascii_only s = true.
Proof.
  destruct s as [|c rest]; [done|]. simpl.
  destruct (Ascii.eqb_spec c "-") as [-> | Hc].
  - destruct (NilZero.uint_of_string rest) as [u|] eqn:Hu; [|done].
    intros _. by apply (ascii_only_literal _ u).
  - destruct (uint_of_char c (NilEmpty.uint_of_string rest)) as [u|] eqn:Hu;
      [|done].
    intros _. by apply (ascii_only_digits (String c rest) u).
Qed.

Lemma within_limit_spec (max_str_digits : nat) (s : string) :
  within_limit max_str_digits s <->
  too_many_digits max_str_digits (digit_count s) = false.
Proof.
  unfold within_limit, too_many_digits.
  rewrite !andb_false_iff, !Nat.ltb_ge. split.
  - intros [-> | [H | H]]; [left; right; lia | by left; left | by right].
  - intros [[H | H] | H]; [right; by left | left; lia | right; by right].
Qed.

(** The text of a decimal literal as [int()] splits it: no white space
    to remove, then the sign and the digits. *)
Lemma int_ascii_literal (max_str_digits : nat) (negative : bool)
    (c : ascii) (body : string) (u : uint) :
  int_space c = false ->
  rstrip int_space (String c body) = String c body ->
  (if negative then c = "-"%char /\ NilZero.uint_of_string body = Some u
   else c = "+"%char /\ NilZero.uint_of_string body = Some u) ->
  int_ascii max_str_digits (String c body) =
  if too_many_digits max_str_digits (digit_count body) then None
  else Some (Z.of_int (if negative then Neg u else Pos u)).
Proof.
  intros Hc Hr Hsign. unfold int_ascii, strip. cbn [lstrip]. rewrite Hc, Hr.
  destruct negative; destruct Hsign as [-> Hu];
    by rewrite (digits_of_literal _ _ Hu).
Qed.

(** [int()] reads a decimal literal within the limit of digits as the
    integer it denotes. *)
Lemma int_ascii_decimal (max_str_digits : nat) (s : string) (d : Decimal.int) :
  NilZero.int_of_string s = Some d ->
  int_ascii max_str_digits s =
  if too_many_digits max_str_digits (digit_count s) then None
  else Some (Z.of_int d).
Proof.
  destruct s as [|c rest]; [done|]. simpl NilZero.int_of_string.
  destruct (Ascii.eqb_spec c "-") as [-> | Hc].
  - destruct (NilZero.uint_of_string rest) as [u|] eqn:Hu; [|done].
    intros [= <-].
    assert (Hr : rstrip int_space (String "-" rest) = String "-" rest).
    { cbn [rstrip]. rewrite (rstrip_literal _ _ Hu). by destruct rest. }
    by rewrite (int_ascii_literal max_str_digits true "-" rest u).
  - destruct (uint_of_char c (NilEmpty.uint_of_string rest)) as [u|] eqn:Hu;
      [|done].
    intros [= <-]. unfold int_ascii, strip.
    destruct (uint_of_char_Some _ _ _ Hu) as [d0 Hrest].
    pose proof Hu as Hc'. rewrite Hrest in Hc'.
    destruct (digit_char _ _ _ Hc') as (Hsp & _ & Hminus & Hplus & _).
    assert (Hstrip : rstrip int_space (lstrip int_space (String c rest))
                     = String c rest).
    { cbn [lstrip]. rewrite Hsp. by apply (rstrip_digits (String c rest) u). }
    rewrite Hstrip.
    assert (Hd : digits_of (String c rest) false = Some u)
      by by apply digits_of_literal.
    destruct c as [[] [] [] [] [] [] [] []]; try done;
      by rewrite Hd.
Qed.

Lemma int_of_string_decimal (n : Z) :
  NilZero.int_of_string (decimal n) = Some (Z.to_int n).
Proof.
  unfold decimal. apply NilZero.isi; destruct n as [|p|p]; try done;
    intros [= H]; by apply Unsigned.to_uint_nonnil in H.
Qed.

Lemma append_cons (c : ascii) (s t : string) :
  String c s +:+ t = String c (s +:+ t).
Proof. reflexivity. Qed.

Lemma append_empty_r (s : string) : s +:+ "" = s.
Proof.
  induction s as [|c s IH]; [done|]. by rewrite append_cons, IH.
Qed.

Lemma str_replace_absent (old : ascii) (new s : string) :
  occurs old s = false -> str_replace old new s = s.
Proof.
  induction s as [|c rest IH]; [done|]. simpl.
  destruct (Ascii.eqb c old); [done|]. simpl. intros H. by rewrite IH.
Qed.

Lemma str_replace_suffix (old : ascii) (new pre : string) :
  occurs old pre = false ->
  str_replace old new (pre +:+ String old EmptyString) = pre +:+ new.
Proof.
  induction pre as [|c rest IH].
  - intros _. change (str_replace old new (String old "") = new).
    simpl. rewrite Ascii.eqb_refl. apply append_empty_r.
  - rewrite !append_cons. simpl.
    destruct (Ascii.eqb c old); [done|]. simpl. intros H. by rewrite IH.
Qed.

Section Interpreter.

Variable max_str_digits : nat.
Variable int_unicode : string -> option Z.

Local Abbreviation int := (py_int max_str_digits int_unicode).

(** [int()] on a decimal literal: its value within the limit of digits,
    [ValueError] beyond. *)
Lemma py_int_decimal (s : string) (d : Decimal.int) :
  NilZero.int_of_string s = Some d ->
  (within_limit max_str_digits s -> int s = Some (Z.of_int d)) /\
  (~ within_limit max_str_digits s -> int s = None).
Proof.
  intros Hs. unfold py_int.
  rewrite (ascii_only_decimal _ _ Hs), (int_ascii_decimal _ _ _ Hs).
  rewrite within_limit_spec.
  by destruct (too_many_digits max_str_digits (digit_count s)).
Qed.

End Interpreter.

End ParseTimestampFacts.

Section ParseTimestampClaims.
Import CreatedDateFilter.

Variable max_str_digits : nat.
Variable int_unicode : string -> option Z.
Variable datetime : Type.
Variable fromisoformat : string -> option datetime.
Variable timestamp : datetime -> result Z.
Variable write_file : string -> option string.
Variable load_messages : args -> result (list message).

Local Abbreviation int := (py_int max_str_digits int_unicode).
Local Abbreviation parse :=
  (parse_timestamp max_str_digits int_unicode datetime fromisoformat timestamp).
Local Abbreviation script :=
  (main max_str_digits int_unicode datetime fromisoformat timestamp
     write_file load_messages).

(** C7 (amended). [parse_timestamp] returns the integer that a decimal
    literal denotes when the literal has no more digits than [int()]
    accepts, so every such integer is read back from its decimal text;
    a literal with more digits is refused by [int()].  A string that
    [int()] refuses is handed to the ISO-8601 parser with its ['Z']
    replaced by ['+00:00'], which leaves a string without ['Z'] as it is
    and, in a string whose only ['Z'] is the last character, replaces
    that suffix; the outcome is the one of [timestamp()] on the parsed
    date, its epoch second or the exception it raises.  When the parser
    refuses the string too, [ValueError] is raised.  What
    [parse_timestamp] raises for the first bound, or for the second
    after the first was read, leaves [main], ending the script. *)
Theorem parse_timestamp_cases :
  (forall n : Z,
      within_limit max_str_digits (decimal n) -> parse (decimal n) = Ok n) /\
  (forall s d,
      NilZero.int_of_string s = Some d -> within_limit max_str_digits s ->
      parse s = Ok (Z.of_int d)) /\
  (forall s d,
      NilZero.int_of_string s = Some d -> ~ within_limit max_str_digits s ->
      int s = None) /\
  (forall s dt,
      int s = None ->
      fromisoformat (str_replace "Z" "+00:00" s) = Some dt ->
      parse s = timestamp dt) /\
  (forall s, occurs "Z" s = false -> str_replace "Z" "+00:00" s = s) /\
  (forall pre,
      occurs "Z" pre = false ->
      str_replace "Z" "+00:00" (pre +:+ "Z") = pre +:+ "+00:00") /\
  (forall s,
      int s = None ->
      fromisoformat (str_replace "Z" "+00:00" s) = None ->
      parse s = Raise ValueError) /\
  (forall a e, parse (arg_start a) = Raise e -> script a = Raise e) /\
  (forall a s e,
      parse (arg_start a) = Ok s -> parse (arg_end a) = Raise e ->
      script a = Raise e).
Proof.
  split; [|split; [|split; [|split; [|split; [|split; [|split; [|split]]]]]]].
  - intros n Hn. unfold parse_timestamp.
    destruct (py_int_decimal max_str_digits int_unicode _ _
                (int_of_string_decimal n)) as [Hint _].
    by rewrite (Hint Hn), DecimalZ.of_to.
  - intros s d Hs Hlimit. unfold parse_timestamp.
    destruct (py_int_decimal max_str_digits int_unicode _ _ Hs) as [Hint _].
    by rewrite (Hint Hlimit).
  - intros s d Hs Hlimit.
    destruct (py_int_decimal max_str_digits int_unicode _ _ Hs) as [_ Hint].
    by apply Hint.
  - intros s dt Hint Hiso. unfold parse_timestamp. by rewrite Hint, Hiso.
  - intros s Hs. by apply str_replace_absent.
  - intros pre Hpre. by apply str_replace_suffix.
  - intros s Hint Hiso. unfold parse_timestamp. by rewrite Hint, Hiso.
  - intros a e Hstart. unfold main. by rewrite Hstart.
  - intros a s e Hstart Hend. unfold main. by rewrite Hstart, Hend.
Qed.

End ParseTimestampClaims.

Lemma parse_timestamp_cases_witness :
  CreatedDateFilter.parse_timestamp 4300 (fun _ => None) unit april_first
    (fun _ => Ok 1680307200) "1680307200" = Ok 1680307200 /\
  CreatedDateFilter.parse_timestamp 4300 (fun _ => None) unit april_first
    (fun _ => Ok 1680307200) "2023-04-01T00:00:00Z" = Ok 1680307200.
Proof.
  pose proof (parse_timestamp_cases 4300 (fun _ => None) unit april_first
                (fun _ => Ok 1680307200) (fun _ => None) (fun _ => Ok []))
    as (_ & Hint & _ & Hiso & _).
  split.
  - apply (Hint "1680307200" (Z.to_int 1680307200)); [reflexivity|].
    right; left. vm_compute. lia.
  - apply (Hiso "2023-04-01T00:00:00Z" tt); reflexivity.
Defined.

(** C7 (what fails).  The text of 4301 digits [1] is a decimal integer.
    With the limit of 4300 digits that the interpreter has by default,
    [int()] refuses it, so that [parse_timestamp] hands it to the ISO
    parser whatever the library: it raises [ValueError] when the parser
    refuses the text, and when the parser reads a date in it (CPython
    3.11 reads the 11th of November 1111) it returns the epoch second
    of that date, not the integer. *)
Lemma parse_timestamp_long_literal :
  NilZero.int_of_string long_literal = Some (Pos long_digits) /\
  (forall (int_unicode : string -> option Z) (datetime : Type)
          (fromisoformat : string -> option datetime)
          (timestamp : datetime -> result Z),
      CreatedDateFilter.parse_timestamp 4300 int_unicode datetime
        fromisoformat timestamp long_literal
      = match fromisoformat long_literal with
        | Some dt => timestamp dt
        | None => Raise ValueError
        end) /\
  CreatedDateFilter.parse_timestamp 4300 (fun _ => None) unit
    (fun _ => None) (fun _ => Ok 0) long_literal = Raise ValueError /\
  CreatedDateFilter.parse_timestamp 4300 (fun _ => None) unit
    (fun _ => Some tt) (fun _ => Ok (-27080311728)) long_literal
  <> Ok (Z.of_int (Pos long_digits)).
Proof.
  assert (Hascii : ascii_only long_literal = true)
    by (vm_compute; reflexivity).
  assert (Hint : CreatedDateFilter.int_ascii 4300 long_literal = None)
    by (vm_compute; reflexivity).
  assert (Hz : CreatedDateFilter.str_replace "Z" "+00:00" long_literal
               = long_literal).
  { apply str_replace_absent. vm_compute. reflexivity. }
  assert (Hparse : forall (int_unicode : string -> option Z) (datetime : Type)
            (fromisoformat : string -> option datetime)
            (timestamp : datetime -> result Z),
      CreatedDateFilter.parse_timestamp 4300 int_unicode datetime
        fromisoformat timestamp long_literal
      = match fromisoformat long_literal with
        | Some dt => timestamp dt
        | None => Raise ValueError
        end).
  { intros int_unicode datetime fromisoformat timestamp.
    unfold CreatedDateFilter.parse_timestamp, CreatedDateFilter.py_int.
    by rewrite Hascii, Hint, Hz. }
  split; [vm_compute; reflexivity|]. split; [exact Hparse|]. split.
  - by rewrite Hparse.
  - rewrite Hparse. intros H. injection H as H.
    assert (Hpos : 0 <= Z.of_uint long_digits)
      by exact (N2Z.is_nonneg (Pos.of_uint long_digits)).
    rewrite <- H in Hpos. lia.
Qed.

(** ** The metadata filter *)

Section MetadataFilterFacts.
Import MetadataFilter.

Lemma meets_spec (filters : list (string * string)) (m : message) :
  meets filters m = true <->
  forall key value, (key, value) ∈ filters -> metadata_of m !! key = Some value.
Proof.
  unfold meets. rewrite forallb_forall. split.
  - intros H key value Hin%list_elem_of_In.
    apply H in Hin. by apply bool_decide_eq_true in Hin.
  - intros H [key value] Hin%list_elem_of_In.
    apply bool_decide_eq_true. by apply H.
Qed.

(** On a mapping, the loop of [_matches_metadata_filters] answers
    whether every constraint is met. *)
Lemma matches_dict (d : gmap string string) (filters : list (string * string)) :
  _matches_metadata_filters (VDict d) filters =
  Ok (forallb (fun kv => bool_decide (d !! kv.1 = Some kv.2)) filters).
Proof.
  induction filters as [|[key value] rest IH]; [done|].
  cbn [_matches_metadata_filters forallb fst snd not_in getitem rbind].
  destruct (d !! key) as [found|] eqn:Hkey.
  - rewrite bool_decide_eq_true_2 by eauto. cbn [negb rbind].
    destruct (String.eqb_spec found value) as [-> | Hne]; cbn [negb].
    + rewrite IH. by rewrite bool_decide_eq_true_2.
    + rewrite bool_decide_eq_false_2 by congruence. done.
  - rewrite bool_decide_eq_false_2 by (intros [? ?]; done). cbn [negb].
    by rewrite bool_decide_eq_false_2.
Qed.

Lemma get_metadata_typed (m : message) :
  metadata_typed m = true -> get_metadata m = VDict (metadata_of m).
Proof.
  unfold metadata_typed, get_metadata, metadata_of.
  by destruct (m !! "metadata") as [[]|].
Qed.

Lemma filter_loop_eq (messages : list message)
    (filters : list (string * string)) (filtered : list message) :
  forallb metadata_typed messages = true ->
  filter_loop messages filters filtered =
  Ok (filtered ++ List.filter (meets filters) messages).
Proof.
  revert filtered.
  induction messages as [|m rest IH]; intros filtered Htyped.
  - simpl. by rewrite app_nil_r.
  - cbn [forallb] in Htyped. apply andb_prop in Htyped as [Hm Hrest].
    cbn [filter_loop List.filter].
    rewrite (get_metadata_typed _ Hm), matches_dict. cbn [rbind].
    fold (meets filters m).
    destruct (meets filters m); rewrite (IH _ Hrest); [|done].
    by rewrite <- app_assoc.
Qed.

Lemma filter_by_metadata_eq (messages : list message)
    (filters : list (string * string)) :
  forallb metadata_typed messages = true ->
  filter_by_metadata messages (Some filters) =
  Ok (List.filter (meets filters) messages).
Proof.
  intros Htyped. destruct filters as [|kv rest].
  - simpl. by rewrite list_filter_all.
  - unfold filter_by_metadata. by rewrite (filter_loop_eq _ _ _ Htyped).
Qed.

(** Whatever the metadata of a message is, an answer of
    [_matches_metadata_filters] is the answer of [meets]. *)
Lemma matches_ok (m : message) (filters : list (string * string)) (b : bool) :
  _matches_metadata_filters (get_metadata m) filters = Ok b ->
  b = meets filters m.
Proof.
  unfold get_metadata, meets, metadata_of.
  destruct (m !! "metadata") as [[| n | s | d]|].
  - destruct filters as [|[key value] rest]; [by intros [= <-] | done].
  - destruct filters as [|[key value] rest]; [by intros [= <-] | done].
  - induction filters as [|[key value] rest IH]; [by intros [= <-]|].
    cbn [_matches_metadata_filters not_in rbind forallb fst snd].
    rewrite lookup_empty, bool_decide_eq_false_2 by done.
    destruct (is_substring key s); cbn [negb getitem rbind]; [done|].
    by intros [= <-].
  - rewrite matches_dict. by intros [= <-].
  - rewrite matches_dict. by intros [= <-].
Qed.

Lemma filter_loop_ok (messages : list message)
    (filters : list (string * string)) :
  forall filtered kept,
    filter_loop messages filters filtered = Ok kept ->
    kept = filtered ++ List.filter (meets filters) messages.
Proof.
  induction messages as [|m rest IH]; intros filtered kept.
  - simpl. rewrite app_nil_r. by intros [= <-].
  - cbn [filter_loop List.filter].
    destruct (_matches_metadata_filters (get_metadata m) filters)
      as [b | e] eqn:Hm; [|done].
    apply matches_ok in Hm as ->. cbn [rbind].
    destruct (meets filters m); intros Hrest%IH; [|done].
    by rewrite <- app_assoc in Hrest.
Qed.

End MetadataFilterFacts.

Section MetadataFilterClaims.
Import MetadataFilter.

(** C3. With at least one constraint, on messages whose [metadata] is a
    mapping when present, the filter keeps exactly the messages whose
    metadata holds every constraint key with the required value: a
    message that lacks a constraint key is left out; whatever the
    messages, a list it returns is that one.  The constraint
    [user_email = a@b.com] keeps the first of the two messages of the
    example. *)
Theorem filter_by_metadata_exact :
  (forall (d : gmap string string) (filters : list (string * string)),
      exists b,
        _matches_metadata_filters (VDict d) filters = Ok b /\
        (b = true <->
         forall key value, (key, value) ∈ filters -> d !! key = Some value)) /\
  (forall (messages : list message) (filters : list (string * string))
          (kept : list message),
      filters <> [] ->
      filter_by_metadata messages (Some filters) = Ok kept ->
      kept = List.filter (meets filters) messages) /\
  (forall (messages : list message) (filters : list (string * string)),
      filters <> [] ->
      forallb metadata_typed messages = true ->
      exists kept,
        filter_by_metadata messages (Some filters) = Ok kept /\
        kept = List.filter (meets filters) messages /\
        (forall m, m ∈ kept <->
           m ∈ messages /\
           forall key value,
             (key, value) ∈ filters -> metadata_of m !! key = Some value) /\
        (forall m key value,
            (key, value) ∈ filters -> metadata_of m !! key = None ->
            m ∉ kept)) /\
  filter_by_metadata two_messages (Some [("user_email", "a@b.com")])
  = Ok [tagged {[ "user_email" := "a@b.com" ]}].
Proof.
  split; [|split; [|split]].
  - intros d filters. eexists. split; [apply matches_dict|].
    rewrite forallb_forall. split.
    + intros H key value Hin%list_elem_of_In.
      apply H in Hin. by apply bool_decide_eq_true in Hin.
    + intros H [key value] Hin%list_elem_of_In.
      apply bool_decide_eq_true. by apply H.
  - intros messages [|kv rest] kept Hne; [done|].
    unfold filter_by_metadata. by intros Hrun%filter_loop_ok.
  - intros messages filters _ Htyped.
    exists (List.filter (meets filters) messages).
    rewrite (filter_by_metadata_eq _ _ Htyped).
    split; [done|]. split; [done|].
    assert (Hiff : forall m, m ∈ List.filter (meets filters) messages <->
              m ∈ messages /\
              forall key value,
                (key, value) ∈ filters -> metadata_of m !! key = Some value).
    { intros m. by rewrite elem_of_list_filter, meets_spec. }
    split; [exact Hiff|].
    intros m key value Hin Hnone [_ Hall]%Hiff.
    specialize (Hall key value Hin). congruence.
  - reflexivity.
Qed.

Lemma filter_by_metadata_exact_witness :
  [("user_email", "a@b.com")] <> ([] : list (string * string)) /\
  forallb metadata_typed (no_timestamp :: two_messages) = true /\
  exists kept,
    filter_by_metadata (no_timestamp :: two_messages)
      (Some [("user_email", "a@b.com")]) = Ok kept /\
    kept = [tagged {[ "user_email" := "a@b.com" ]}].
Proof.
  split; [done|]. split; [reflexivity|].
  destruct (proj1 (proj2 (proj2 filter_by_metadata_exact))
              (no_timestamp :: two_messages) [("user_email", "a@b.com")]
              ltac:(done) eq_refl)
    as (kept & Hrun & Hkept & _).
  exists kept. split; [exact Hrun | exact Hkept].
Defined.

(** C5. The filter is monotone in its constraints: when every constraint
    of [F] is a constraint of [F'], the messages kept under [F'] are
    among those kept under [F], in the same order, and are not more
    numerous. *)
Theorem filter_by_metadata_monotone (messages : list message)
    (F F' : list (string * string)) :
  (forall kv, kv ∈ F -> kv ∈ F') ->
  forallb metadata_typed messages = true ->
  exists kept kept',
    filter_by_metadata messages (Some F) = Ok kept /\
    filter_by_metadata messages (Some F') = Ok kept' /\
    sublist kept' kept /\
    (forall m, m ∈ kept' -> m ∈ kept) /\
    (length kept' <= length kept)%nat.
Proof.
  intros Hsub Htyped.
  exists (List.filter (meets F) messages), (List.filter (meets F') messages).
  rewrite !filter_by_metadata_eq by done.
  assert (Hsl : sublist (List.filter (meets F') messages)
                        (List.filter (meets F) messages)).
  { apply sublist_list_filter_impl. intros m. rewrite !meets_spec.
    intros H key value Hin. apply H. by apply Hsub. }
  split; [done|]. split; [done|]. split; [done|]. split.
  - intros m. by apply sublist_subseteq.
  - by apply sublist_length.
Qed.

Lemma filter_by_metadata_monotone_witness :
  exists kept kept',
    filter_by_metadata two_messages (Some [("user_email", "a@b.com")])
    = Ok kept /\
    filter_by_metadata two_messages
      (Some [("user_email", "a@b.com"); ("team", "docs")]) = Ok kept' /\
    (length kept' <= length kept)%nat.
Proof.
  destruct (filter_by_metadata_monotone two_messages
              [("user_email", "a@b.com")]
              [("user_email", "a@b.com"); ("team", "docs")])
    as (kept & kept' & H1 & H2 & _ & _ & H3).
  - intros kv ->%list_elem_of_singleton. by left.
  - reflexivity.
  - exists kept, kept'. split; [exact H1|]. split; [exact H2 | exact H3].
Defined.

End MetadataFilterClaims.

Section GetMessagesClaims.
Import MetadataFilter.

Variable requests_get :
  string -> list (string * string) -> params -> response + request_exception.
Variable http_error_msg : response -> string.

Local Abbreviation fetch := (get_messages requests_get http_error_msg).

(** A [RequestException] raised by [requests.get] is caught: its text is
    printed and the empty list is returned. *)
Lemma get_messages_catches (self : OpenAIMessageClient) (thread_id : string)
    (metadata_filters : option (list (string * string))) (limit : Z)
    (order : string) (e : request_exception) :
  requests_get (messages_url self thread_id) (headers self)
    (sent_params limit order) = inr e ->
  fetch self thread_id metadata_filters limit order =
  (Get (messages_url self thread_id) (headers self) (sent_params limit order)
     :: get_messages_except http_error_msg e, Ok []).
Proof.
  intros Hget. unfold get_messages, get_messages_try.
  fold (messages_url self thread_id). fold (sent_params limit order).
  by rewrite Hget.
Qed.

(** So is the [HTTPError] of a response with an error status. *)
Lemma get_messages_catches_status (self : OpenAIMessageClient)
    (thread_id : string) (metadata_filters : option (list (string * string)))
    (limit : Z) (order : string) (r : response) :
  requests_get (messages_url self thread_id) (headers self)
    (sent_params limit order) = inl r ->
  400 <= status_code r < 600 ->
  fetch self thread_id metadata_filters limit order =
  ([Get (messages_url self thread_id) (headers self) (sent_params limit order);
    Print ("Error retrieving messages: " +:+ http_error_msg r)], Ok []).
Proof.
  intros Hget Hstatus. unfold get_messages, get_messages_try.
  fold (messages_url self thread_id). fold (sent_params limit order).
  rewrite Hget. cbn [rbind]. unfold raise_for_status at 1.
  replace ((400 <=? status_code r) && (status_code r <? 600)) with true
    by (symmetry; apply andb_true_intro; lia).
  cbn [rbind]. unfold get_messages_except. cbn [exc_str exc_response].
  unfold response_bool, raise_for_status.
  replace ((400 <=? status_code r) && (status_code r <? 600)) with true
    by (symmetry; apply andb_true_intro; lia).
  done.
Qed.

(** With a response that is no error, the result is the filtered list of
    the messages received. *)
Lemma get_messages_received (self : OpenAIMessageClient)
    (thread_id : string) (metadata_filters : option (list (string * string)))
    (limit : Z) (order : string) (r : response) (kept : list message) :
  requests_get (messages_url self thread_id) (headers self)
    (sent_params limit order) = inl r ->
  status_code r < 400 \/ 600 <= status_code r ->
  filter_by_metadata (default [] (json r)) metadata_filters = Ok kept ->
  fetch self thread_id metadata_filters limit order =
  ([Get (messages_url self thread_id) (headers self) (sent_params limit order)],
   Ok kept).
Proof.
  intros Hget Hstatus Hkept. unfold get_messages, get_messages_try.
  fold (messages_url self thread_id). fold (sent_params limit order).
  rewrite Hget. cbn [rbind]. unfold raise_for_status.
  replace ((400 <=? status_code r) && (status_code r <? 600)) with false
    by (symmetry; apply andb_false_iff; lia).
  cbn [rbind]. by rewrite Hkept.
Qed.

(** C4. With an empty constraint mapping (or none) the metadata filter
    is the identity: the whole list is returned, unchanged and in its
    order, and [get_messages] returns the messages it received. *)
Theorem filter_by_metadata_empty (messages : list message) :
  filter_by_metadata messages (Some []) = Ok messages /\
  filter_by_metadata messages None = Ok messages /\
  forall self thread_id limit order r,
    requests_get (messages_url self thread_id) (headers self)
      (sent_params limit order) = inl r ->
    status_code r < 400 \/ 600 <= status_code r ->
    json r = Some messages ->
    (fetch self thread_id (Some []) limit order).2 = Ok messages.
Proof.
  split; [done|]. split; [done|].
  intros self thread_id limit order r Hget Hstatus Hjson.
  rewrite (get_messages_received self thread_id (Some []) limit order r messages);
    [done..|].
  by rewrite Hjson.
Qed.

(** C10. Whatever integer [limit] is passed, the request carries a limit
    between 1 and 100: 1 for an argument below 1, 100 for an argument
    above 100, and the argument itself in between. *)
Theorem get_messages_limit_clamped (self : OpenAIMessageClient)
    (thread_id : string) (metadata_filters : option (list (string * string)))
    (limit : Z) (order : string) :
  exists url query rest,
    (fetch self thread_id metadata_filters limit order).1
    = Get url (headers self) query :: rest /\
    (forall url' headers' query', Get url' headers' query' ∉ rest) /\
    1 <= MetadataFilter.limit query <= 100 /\
    (limit < 1 -> MetadataFilter.limit query = 1) /\
    (100 < limit -> MetadataFilter.limit query = 100) /\
    (1 <= limit <= 100 -> MetadataFilter.limit query = limit).
Proof.
  exists (messages_url self thread_id), (sent_params limit order).
  assert (Hclamp :
    1 <= MetadataFilter.limit (sent_params limit order) <= 100 /\
    (limit < 1 -> MetadataFilter.limit (sent_params limit order) = 1) /\
    (100 < limit -> MetadataFilter.limit (sent_params limit order) = 100) /\
    (1 <= limit <= 100 -> MetadataFilter.limit (sent_params limit order) = limit)).
  { unfold sent_params. cbn [MetadataFilter.limit]. lia. }
  unfold get_messages.
  fold (messages_url self thread_id). fold (sent_params limit order).
  destruct (get_messages_try _ _ _ _ _ _) as [kept | [ | | | | os | re | code | msg]];
    cbn [fst]; eexists; (split; [reflexivity|]); (split; [|exact Hclamp]).
  all: intros url' headers' query' Hev; try by apply not_elem_of_nil in Hev.
  unfold get_messages_except in Hev.
  apply elem_of_cons in Hev as [Hev | Hev]; [done|].
  destruct (exc_response re) as [r|]; [destruct (response_bool _ r)|];
    repeat (apply elem_of_cons in Hev as [Hev | Hev]; [done|]);
    by apply not_elem_of_nil in Hev.
Qed.

End GetMessagesClaims.

Lemma get_messages_limit_clamped_witness :
  exists url query rest,
    (MetadataFilter.get_messages answering_server client_error_msg demo_client
       "thread_1" None 500 "desc").1
    = MetadataFilter.Get url (MetadataFilter.headers demo_client) query :: rest /\
    MetadataFilter.limit query = 100.
Proof.
  destruct (get_messages_limit_clamped answering_server client_error_msg
              demo_client "thread_1" None 500 "desc")
    as (url & query & rest & Hsent & _ & _ & _ & Hhigh & _).
  exists url, query, rest. split; [exact Hsent | apply Hhigh; lia].
Defined.

Lemma filter_by_metadata_empty_witness :
  (MetadataFilter.get_messages answering_server client_error_msg demo_client
     "thread_1" (Some []) 100 "desc").2 = Ok two_messages.
Proof.
  refine (proj2 (proj2 (filter_by_metadata_empty answering_server
                          client_error_msg two_messages))
            demo_client "thread_1" 100 "desc"
            {| status_code := 200; text := ""; json := Some two_messages |}
            eq_refl _ eq_refl).
  left. cbn [status_code]. lia.
Defined.

(** C8 (as the code runs it). For a 404 answer, [raise_for_status] raises
    an [HTTPError] that carries the response; [get_messages] catches it,
    prints its text and returns the empty list, but prints neither the
    status nor the body of that response, a response with an error
    status being false in the test [e.response]. *)
Theorem get_messages_not_found :
  MetadataFilter.raise_for_status client_error_msg not_found
  = Raise (RequestError {| exc_str := "404 Client Error";
                           exc_response := Some not_found |}) /\
  MetadataFilter.get_messages refusing_server client_error_msg demo_client
    "thread_1" None 100 "desc"
  = ([MetadataFilter.Get "https://api.openai.com/v1/threads/thread_1/messages"
        (MetadataFilter.headers demo_client) (sent_params 100 "desc");
      MetadataFilter.Print "Error retrieving messages: 404 Client Error"],
     Ok []).
Proof. split; reflexivity. Qed.

Section IdentityClaims.
Import CreatedDateFilter MetadataFilter.

Lemma has_timestamp_typed (m : message) :
  has_timestamp m = true -> created_at_typed m = true.
Proof.
  unfold has_timestamp, created_at_typed.
  by destruct (m !! "created_at") as [[]|].
Qed.

(** C6 (what fails). The bounds 0 and 1000 cover every timestamp of a
    list whose second message has no [created_at], and the timestamp
    filter does not return that list: it drops the second message. *)
Lemma filter_messages_not_identity :
  covers_all 0 1000 [created 100; no_timestamp] /\
  filter_messages [created 100; no_timestamp] 0 1000 = Ok [created 100] /\
  filter_messages [created 100; no_timestamp] 0 1000
  <> Ok [created 100; no_timestamp].
Proof.
  split; [|split].
  - intros m t Hin Hm.
    apply elem_of_cons in Hin as [-> | Hin].
    + vm_compute in Hm. injection Hm as <-. lia.
    + apply list_elem_of_singleton in Hin as ->. vm_compute in Hm. done.
  - reflexivity.
  - change (filter_messages [created 100; no_timestamp] 0 1000)
      with (Ok [created 100] : result (list message)).
    intros H.
    apply (f_equal (fun r => match r with
                             | Ok kept => length kept
                             | Raise _ => O
                             end)) in H.
    discriminate H.
Qed.

(** C6 (amended). When every message carries an integer [created_at]
    and the bounds cover all these timestamps, the timestamp filter
    returns the list as it is; so does the metadata filter with an empty
    constraint mapping, on every list. *)
Theorem filters_identity (messages : list message) :
  (forall s e,
      forallb has_timestamp messages = true ->
      covers_all s e messages ->
      filter_messages messages s e = Ok messages) /\
  filter_by_metadata messages (Some []) = Ok messages /\
  filter_by_metadata messages None = Ok messages.
Proof.
  split; [|done].
  intros s e Hall Hcover. rewrite filter_messages_eq.
  rewrite forallb_forall in Hall.
  replace (forallb created_at_typed messages) with true.
  - f_equal. apply list_filter_all. intros m Hin.
    pose proof (Hall m (proj1 (list_elem_of_In _ _) Hin)) as Hm.
    unfold has_timestamp in Hm. unfold created_within.
    destruct (m !! "created_at") as [[| t | |]|] eqn:Hc; try done.
    specialize (Hcover m t Hin Hc). apply andb_true_intro. lia.
  - symmetry. apply forallb_forall. intros m Hin.
    by apply has_timestamp_typed, Hall.
Qed.

Lemma filters_identity_witness :
  forallb has_timestamp [created 100; created 200; created 300] = true /\
  filter_messages [created 100; created 200; created 300] 100 300
  = Ok [created 100; created 200; created 300].
Proof.
  split; [reflexivity|].
  apply (proj1 (filters_identity [created 100; created 200; created 300]));
    [reflexivity|].
  intros m t Hin Hm.
  repeat (apply elem_of_cons in Hin as [-> | Hin];
          [vm_compute in Hm; injection Hm as <-; lia|]).
  by apply not_elem_of_nil in Hin.
Defined.

End IdentityClaims.

(** ** The polling loop *)

Section ThreadDemoFacts.
Import ThreadDemo.

Variable observed : nat -> run.
Variables thread_id run_id : string.

Local Abbreviation wait := (wait_for_run_completion thread_id run_id).

Local Abbreviation back := (loop_back thread_id run_id).

(** [exec] looks at a program through [observe] only. *)
Lemma exec_observing {R : Type} (fuel : nat) (t t' : itree driverE R)
    (w : world) :
  observing eq t t' -> exec observed fuel t w = exec observed fuel t' w.
Proof. intros [H]. destruct fuel; [done|]. simpl. by rewrite H. Qed.

(** The first step of a turn is the retrieval of the run. *)
Lemma exec_wait_retrieve (fuel : nat) (w : world) :
  exec observed (S fuel) wait w =
  exec observed fuel (ITree.bind (react (observed (retrievals w))) back)
    (retrieved w).
Proof.
  transitivity
    (exec observed fuel
       (ITree.bind (ITree.bind (Ret (observed (retrievals w))) react) back)
       (retrieved w)).
  - reflexivity.
  - apply exec_observing. constructor. by rewrite !observe_bind.
Qed.

Lemma run_cases (r : run) : completed r \/ unrecoverable r \/ pending r.
Proof.
  unfold pending, completed, unrecoverable.
  destruct (decide (status r = "completed")); [by left|].
  destruct (decide (status r ∈ ["failed"; "cancelled"; "expired"]));
    [by right; left | by right; right].
Qed.

Lemma unrecoverable_tests (r : run) :
  unrecoverable r ->
  String.eqb (status r) "completed" = false /\
  existsb (String.eqb (status r)) ["failed"; "cancelled"; "expired"] = true.
Proof.
  unfold unrecoverable. intros H.
  repeat (apply elem_of_cons in H as [-> | H]; [done|]).
  by apply not_elem_of_nil in H.
Qed.

Lemma pending_tests (r : run) :
  pending r ->
  String.eqb (status r) "completed" = false /\
  existsb (String.eqb (status r)) ["failed"; "cancelled"; "expired"] = false.
Proof.
  unfold pending, completed, unrecoverable. intros [Hc Hu]. split.
  - by apply String.eqb_neq.
  - apply not_true_is_false. intros (s & Hin & Heq)%existsb_exists.
    apply String.eqb_eq in Heq as <-. by apply Hu, list_elem_of_In.
Qed.

Lemma react_completed (r : run) :
  completed r -> react r = Ret (inr (Ok r)).
Proof. unfold completed, react. by intros ->. Qed.

Lemma react_unrecoverable (r : run) :
  unrecoverable r ->
  react r =
  Ret (inr (Raise (Exception ("Run ended with status: " +:+ status r)))).
Proof.
  intros [H1 H2]%unrecoverable_tests. unfold react. by rewrite H1, H2.
Qed.

Lemma react_pending (r : run) :
  pending r ->
  react r =
  ITree.bind (ITree.trigger
    (Print ("Waiting for run to complete. Current status: " +:+ status r)))
    (fun _ => ITree.bind (ITree.trigger (Sleep 2)) (fun _ => Ret (inl tt))).
Proof. intros [H1 H2]%pending_tests. unfold react. by rewrite H1, H2. Qed.

(** A turn that meets a completed run returns it. *)
Lemma exec_completed (fuel : nat) (w : world) :
  completed (observed (retrievals w)) ->
  exec observed (S (S fuel)) wait w =
  (retrieved w, Some (Ok (observed (retrievals w)))).
Proof.
  intros H. by rewrite exec_wait_retrieve, (react_completed _ H).
Qed.

(** A turn that meets a failed, cancelled or expired run raises. *)
Lemma exec_unrecoverable (fuel : nat) (w : world) :
  unrecoverable (observed (retrievals w)) ->
  exec observed (S (S fuel)) wait w =
  (retrieved w,
   Some (Raise (Exception ("Run ended with status: "
                           +:+ status (observed (retrievals w)))))).
Proof.
  intros H. by rewrite exec_wait_retrieve, (react_unrecoverable _ H).
Qed.

(** A turn that meets a pending run prints, sleeps two seconds and
    starts the next turn. *)
Lemma exec_pending (fuel : nat) (w : world) :
  pending (observed (retrievals w)) ->
  exec observed (4 + fuel) wait w =
  exec observed fuel wait
    (slept 2 (told ("Waiting for run to complete. Current status: "
                    +:+ status (observed (retrievals w))) (retrieved w))).
Proof.
  intros H. change (4 + fuel)%nat with (S (S (S (S fuel)))).
  by rewrite exec_wait_retrieve, (react_pending _ H).
Qed.

(** Before the end of such a turn nothing is returned. *)
Lemma exec_pending_short (fuel : nat) (w : world) :
  pending (observed (retrievals w)) ->
  (fuel < 4)%nat ->
  (exec observed fuel wait w).2 = None.
Proof.
  intros H Hfuel.
  destruct fuel as [|fuel]; [done|].
  rewrite exec_wait_retrieve, (react_pending _ H).
  destruct fuel as [|[|[|fuel]]]; [done..|lia].
Qed.

(** [n] pending runs in a row: [n] turns, after which the driver is at
    the head of its loop again. *)
Lemma exec_waiting (n : nat) :
  forall (w : world) (fuel : nat),
    (forall k, (k < n)%nat -> pending (observed (retrievals w + k))) ->
    exec observed (4 * n + fuel) wait w =
    exec observed fuel wait
      {| retrievals := retrievals w + n;
         effects := effects w ++ waiting observed (retrievals w) n |}.
Proof.
  induction n as [|n IH]; intros w fuel Hpending.
  - simpl. rewrite Nat.add_0_r, app_nil_r. by destruct w.
  - replace (4 * S n + fuel)%nat with (4 + (4 * n + fuel))%nat by lia.
    rewrite exec_pending
      by (rewrite <- (Nat.add_0_r (retrievals w)); apply Hpending; lia).
    rewrite IH.
    + cbn [retrievals effects slept told retrieved waiting].
      do 2 f_equal; [lia|]. by rewrite <- !app_assoc.
    + intros k Hk. cbn [retrievals slept told retrieved].
      replace (S (retrievals w) + k)%nat with (retrievals w + S k)%nat by lia.
      apply Hpending. lia.
Qed.

(** While the runs are pending nothing is returned. *)
Lemma exec_waiting_none (n : nat) :
  forall (w : world) (fuel : nat),
    (forall k, (k <= n)%nat -> pending (observed (retrievals w + k))) ->
    (fuel <= 4 * n + 3)%nat ->
    (exec observed fuel wait w).2 = None.
Proof.
  induction n as [|n IH]; intros w fuel Hpending Hfuel.
  - apply exec_pending_short; [|lia].
    rewrite <- (Nat.add_0_r (retrievals w)). by apply Hpending.
  - assert (Hp : pending (observed (retrievals w))).
    { rewrite <- (Nat.add_0_r (retrievals w)). apply Hpending. lia. }
    destruct (lt_dec fuel 4) as [Hlt | Hge].
    + by apply exec_pending_short.
    + replace fuel with (4 + (fuel - 4))%nat by lia.
      rewrite (exec_pending _ _ Hp). apply IH; [|lia].
      intros k Hk. cbn [retrievals slept told retrieved].
      replace (S (retrievals w) + k)%nat with (retrievals w + S k)%nat by lia.
      apply Hpending. lia.
Qed.

(** Whatever the loop gives back comes from a run it observed: a
    completed one when it returns, a failed, cancelled or expired one
    when it raises. *)
Lemma exec_sound (fuel : nat) :
  forall (w w' : world) (res : result run),
    exec observed fuel wait w = (w', Some res) ->
    exists k,
      (completed (observed k) /\ res = Ok (observed k)) \/
      (unrecoverable (observed k) /\
       res = Raise (Exception ("Run ended with status: "
                               +:+ status (observed k)))).
Proof.
  induction fuel as [fuel IH] using lt_wf_ind. intros w w' res Hrun.
  destruct (run_cases (observed (retrievals w))) as [Hc | [Hu | Hp]].
  - destruct fuel as [|[|fuel]]; [done | by rewrite exec_wait_retrieve in Hrun |].
    rewrite (exec_completed _ _ Hc) in Hrun. injection Hrun as _ <-.
    exists (retrievals w). by left.
  - destruct fuel as [|[|fuel]]; [done | by rewrite exec_wait_retrieve in Hrun |].
    rewrite (exec_unrecoverable _ _ Hu) in Hrun. injection Hrun as _ <-.
    exists (retrievals w). by right.
  - destruct (lt_dec fuel 4) as [Hlt | Hge].
    + pose proof (exec_pending_short fuel w Hp Hlt) as Hnone.
      rewrite Hrun in Hnone. done.
    + replace fuel with (4 + (fuel - 4))%nat in Hrun by lia.
      rewrite (exec_pending _ _ Hp) in Hrun.
      apply IH in Hrun; [done | lia].
Qed.

End ThreadDemoFacts.

Section ThreadDemoClaims.
Import ThreadDemo.

(** C9. The polling loop returns a run only when the status it observed
    is [completed], raises only for [failed], [cancelled] or [expired],
    with that status in the message; after [n] pending observations it
    has printed and slept two seconds [n] times and polls again, so that
    a completed run at the next retrieval is returned, an unrecoverable
    one raises, and a pending one returns nothing. *)
Theorem wait_for_run_completion_outcome (observed : nat -> run)
    (thread_id run_id : string) :
  let wait := wait_for_run_completion thread_id run_id in
  let start := {| retrievals := 0; effects := [] |} in
  (forall fuel w r,
      exec observed fuel wait start = (w, Some (Ok r)) ->
      completed r /\ exists k, r = observed k) /\
  (forall fuel w e,
      exec observed fuel wait start = (w, Some (Raise e)) ->
      exists k, unrecoverable (observed k) /\
        e = Exception ("Run ended with status: " +:+ status (observed k))) /\
  (forall n,
      (forall k, (k < n)%nat -> pending (observed k)) ->
      let polled := {| retrievals := n; effects := waiting observed 0 n |} in
      (forall fuel,
          exec observed (4 * n + fuel) wait start
          = exec observed fuel wait polled) /\
      (completed (observed n) ->
       forall fuel, (4 * n + 2 <= fuel)%nat ->
         exec observed fuel wait start
         = (retrieved polled, Some (Ok (observed n)))) /\
      (unrecoverable (observed n) ->
       forall fuel, (4 * n + 2 <= fuel)%nat ->
         exec observed fuel wait start
         = (retrieved polled,
            Some (Raise (Exception ("Run ended with status: "
                                    +:+ status (observed n)))))) /\
      (pending (observed n) ->
       forall fuel, (fuel <= 4 * n + 3)%nat ->
         (exec observed fuel wait start).2 = None)).
Proof.
  intros wait start. split; [|split].
  - intros fuel w r Hrun.
    apply exec_sound in Hrun as [k [[Hc [= ->]] | [_ [=]]]]. eauto.
  - intros fuel w e Hrun.
    apply exec_sound in Hrun as [k [[_ [=]] | [Hu [= ->]]]]. eauto.
  - intros n Hpending polled.
    assert (Hturns : forall fuel,
      exec observed (4 * n + fuel) wait start = exec observed fuel wait polled).
    { intros fuel. subst wait start polled. by rewrite exec_waiting. }
    split; [exact Hturns|]. split; [|split].
    + intros Hc fuel Hfuel.
      replace fuel with (4 * n + S (S (fuel - 4 * n - 2)))%nat by lia.
      rewrite Hturns. by apply exec_completed.
    + intros Hu fuel Hfuel.
      replace fuel with (4 * n + S (S (fuel - 4 * n - 2)))%nat by lia.
      rewrite Hturns. by apply exec_unrecoverable.
    + intros Hp fuel Hfuel. subst wait start.
      apply (exec_waiting_none observed thread_id run_id n); [|done].
      intros k Hk. cbn [retrievals]. rewrite Nat.add_0_l.
      destruct (decide (k = n)) as [-> | Hne]; [done|].
      apply Hpending. lia.
Qed.

End ThreadDemoClaims.

(** A status that is none of the four final ones is pending. *)
Ltac pending_status :=
  let H := fresh in
  split; intros H;
  [ discriminate H
  | repeat (apply elem_of_cons in H as [H | H]; [discriminate H|]);
    by apply not_elem_of_nil in H ].

Lemma wait_for_run_completion_outcome_witness :
  ThreadDemo.exec sample_runs 10
    (ThreadDemo.wait_for_run_completion "thread_1" "run_1")
    {| ThreadDemo.retrievals := 0; ThreadDemo.effects := [] |}
  = ({| ThreadDemo.retrievals := 3;
        ThreadDemo.effects := waiting sample_runs 0 2 |},
     Some (Ok (sample_runs 2))).
Proof.
  refine (proj1 (proj2 (proj2 (proj2 (wait_for_run_completion_outcome
            sample_runs "thread_1" "run_1")) 2%nat _))
            eq_refl 10%nat _).
  - intros k Hk. destruct k as [|[|k]]; [pending_status..|lia].
  - simpl. lia.
Defined.

(** * Further properties of the code *)

(** ** [filter_messages]: errors, bounds, composition *)

Section FilterMessagesMore.
Import CreatedDateFilter.

Lemma created_at_untyped (m : message) :
  created_at_typed m = false <->
  exists v, m !! "created_at" = Some v /\
            ((exists str, v = VStr str) \/ (exists d, v = VDict d)).
Proof.
  unfold created_at_typed. split.
  - destruct (m !! "created_at") as [[| t | str | d]|]; try done; eauto.
  - by intros (v & -> & [[str ->] | [d ->]]).
Qed.

Lemma forallb_false_elem {A : Type} (f : A -> bool) (l : list A) :
  forallb f l = false <-> exists x, x ∈ l /\ f x = false.
Proof.
  induction l as [|x l IH]; simpl.
  - split; [done | by intros (x & Hx%not_elem_of_nil & _)].
  - rewrite andb_false_iff, IH. split.
    + intros [Hx | (y & Hy & Hf)]; [exists x | exists y];
        (split; [by constructor | done]).
    + intros (y & [-> | Hy]%elem_of_cons & Hf); [by left | right; eauto].
Qed.

Lemma forallb_list_filter {A : Type} (p f : A -> bool) (l : list A) :
  forallb p l = true -> forallb p (List.filter f l) = true.
Proof.
  rewrite !forallb_forall. intros H x [Hx _]%filter_In. by apply H.
Qed.

Lemma list_filter_filter {A : Type} (f g : A -> bool) (l : list A) :
  List.filter g (List.filter f l) = List.filter (fun x => f x && g x) l.
Proof.
  induction l as [|x l IH]; simpl; [done|].
  destruct (f x); simpl; [|done]. destruct (g x); by rewrite IH.
Qed.

Lemma list_filter_ext_in {A : Type} (f g : A -> bool) (l : list A) :
  (forall x, f x = g x) -> List.filter f l = List.filter g l.
Proof. intros H. apply filter_ext. exact H. Qed.

Lemma created_within_both (s1 e1 s2 e2 : Z) (m : message) :
  created_within s1 e1 m && created_within s2 e2 m
  = created_within (Z.max s1 s2) (Z.min e1 e2) m.
Proof.
  unfold created_within.
  destruct (m !! "created_at") as [[| t | |]|]; try done.
  apply eq_true_iff_eq. rewrite !andb_true_iff, !Z.leb_le. lia.
Qed.


(** X2. With bounds in the wrong order ([end] before [start]) the
    filter keeps nothing: on well-typed messages it returns the empty
    list instead of raising. *)
Theorem filter_messages_inverted (messages : list message) (s e : Z) :
  e < s ->
  forallb created_at_typed messages = true ->
  filter_messages messages s e = Ok [].
Proof.
  intros Hse Htyped. rewrite filter_messages_eq, Htyped. f_equal.
  induction messages as [|m rest IH]; [done|].
  cbn [forallb] in Htyped. apply andb_prop in Htyped as [_ Hrest].
  cbn [List.filter]. rewrite (IH Hrest).
  replace (created_within s e m) with false; [done|].
  symmetry. apply not_true_is_false.
  intros (t & _ & Ht)%created_within_spec. lia.
Qed.

Lemma filter_messages_inverted_witness :
  filter_messages [created 100; no_timestamp; created 300] 300 100 = Ok [].
Proof.
  apply filter_messages_inverted; [lia | reflexivity].
Defined.

(** X3. Filtering the result of a filter is filtering once with the
    intersection of the two ranges, errors included; in particular
    filtering a result again with the same bounds changes nothing. *)
Theorem filter_messages_twice (messages : list message) (s1 e1 s2 e2 : Z) :
  (let* kept := filter_messages messages s1 e1 in
   filter_messages kept s2 e2)
  = filter_messages messages (Z.max s1 s2) (Z.min e1 e2) /\
  (forall kept,
      filter_messages messages s1 e1 = Ok kept ->
      filter_messages kept s1 e1 = Ok kept).
Proof.
  assert (Htwice :
    (let* kept := filter_messages messages s1 e1 in
     filter_messages kept s2 e2)
    = filter_messages messages (Z.max s1 s2) (Z.min e1 e2)).
  { rewrite !filter_messages_eq.
    destruct (forallb created_at_typed messages) eqn:Htyped; [|done].
    cbn [rbind]. rewrite filter_messages_eq.
    rewrite (forallb_list_filter _ _ _ Htyped), list_filter_filter.
    f_equal. apply list_filter_ext_in. intros m. apply created_within_both. }
  split; [exact Htwice|].
  intros kept Hkept. clear Htwice. rewrite filter_messages_eq in Hkept.
  destruct (forallb created_at_typed messages) eqn:Htyped; [|done].
  injection Hkept as <-. rewrite filter_messages_eq.
  rewrite (forallb_list_filter _ _ _ Htyped), list_filter_filter.
  f_equal. apply list_filter_ext_in. intros m. apply andb_diag.
Qed.

(** X4. A list may be filtered piece by piece: the filter of a
    concatenation is the concatenation of the filters, and it raises
    when one of the pieces does. *)
Theorem filter_messages_app (first second : list message) (s e : Z) :
  filter_messages (first ++ second) s e
  = (let* kept := filter_messages first s e in
     let* kept' := filter_messages second s e in
     Ok (kept ++ kept')).
Proof.
  rewrite !filter_messages_eq, forallb_app, List.filter_app.
  destruct (forallb created_at_typed first); [|done].
  by destruct (forallb created_at_typed second).
Qed.

(** X5. Widening the bounds never loses a message: what is kept for
    [start, end] is kept, in the same order, for any wider range, and a
    result is never longer than the input. *)
Theorem filter_messages_wider (messages kept : list message)
    (s e s' e' : Z) :
  s' <= s -> e <= e' ->
  filter_messages messages s e = Ok kept ->
  exists kept',
    filter_messages messages s' e' = Ok kept' /\
    sublist kept kept' /\
    (length kept <= length kept' <= length messages)%nat.
Proof.
  intros Hs He. rewrite !filter_messages_eq.
  destruct (forallb created_at_typed messages); [|done]. intros [= <-].
  eexists. split; [done|].
  assert (Hsub : sublist (List.filter (created_within s e) messages)
                         (List.filter (created_within s' e') messages)).
  { apply sublist_list_filter_impl. intros m.
    rewrite !created_within_spec. intros (t & Ht & Hin).
    exists t. split; [done | lia]. }
  split; [done|]. split; [by apply sublist_length|].
  apply sublist_length, sublist_list_filter.
Qed.

Lemma filter_messages_wider_witness :
  exists kept',
    filter_messages [created 100; created 200; created 300] 0 250 = Ok kept' /\
    sublist [created 200] kept'.
Proof.
  destruct (filter_messages_wider [created 100; created 200; created 300]
              [created 200] 150 250 0 250) as (kept' & Hrun & Hsub & _);
    [lia | lia | reflexivity |].
  exists kept'. split; [exact Hrun | exact Hsub].
Defined.

End FilterMessagesMore.

(** ** [parse_timestamp]: what [int()] lets through *)

Section ParseTimestampMore.
Import CreatedDateFilter.

Lemma lstrip_blank_app (pad s : string) :
  blank pad = true -> lstrip int_space (pad +:+ s) = lstrip int_space s.
Proof.
  induction pad as [|c pad IH]; [done|]. cbn [blank].
  intros [Hc Hpad]%andb_prop. rewrite append_cons. cbn [lstrip].
  rewrite Hc. by apply IH.
Qed.

Lemma rstrip_blank (pad : string) :
  blank pad = true -> rstrip int_space pad = "".
Proof.
  induction pad as [|c pad IH]; [done|]. cbn [blank].
  intros [Hc Hpad]%andb_prop. cbn [rstrip]. by rewrite (IH Hpad), Hc.
Qed.

Lemma rstrip_app_blank (s pad : string) :
  blank pad = true -> rstrip int_space (s +:+ pad) = rstrip int_space s.
Proof.
  intros Hpad. induction s as [|c s IH].
  - by apply rstrip_blank.
  - rewrite append_cons. cbn [rstrip]. by rewrite IH.
Qed.

(** A text that is [String c rest], begins with no white space and has
    none at its end, is what [strip] leaves of it once padded. *)
Lemma strip_padded (pad1 pad2 : string) (c : ascii) (rest : string) :
  blank pad1 = true -> blank pad2 = true ->
  int_space c = false ->
  rstrip int_space (String c rest) = String c rest ->
  strip int_space (pad1 +:+ String c rest +:+ pad2) = String c rest.
Proof.
  intros Hpad1 Hpad2 Hc Hr. unfold strip.
  rewrite (lstrip_blank_app _ _ Hpad1), append_cons. cbn [lstrip].
  rewrite Hc, <- append_cons. by rewrite (rstrip_app_blank _ _ Hpad2).
Qed.

Lemma strip_fixed (c : ascii) (rest : string) :
  int_space c = false ->
  rstrip int_space (String c rest) = String c rest ->
  strip int_space (String c rest) = String c rest.
Proof. intros Hc Hr. unfold strip. cbn [lstrip]. by rewrite Hc. Qed.

Lemma int_ascii_strip (max_str_digits : nat) (a b : string) :
  strip int_space a = strip int_space b ->
  int_ascii max_str_digits a = int_ascii max_str_digits b.
Proof. intros H. unfold int_ascii. by rewrite H. Qed.

Lemma int_ascii_padded (max_str_digits : nat) (pad1 pad2 : string)
    (c : ascii) (rest : string) :
  blank pad1 = true -> blank pad2 = true ->
  int_space c = false ->
  rstrip int_space (String c rest) = String c rest ->
  int_ascii max_str_digits (pad1 +:+ String c rest +:+ pad2)
  = int_ascii max_str_digits (String c rest).
Proof.
  intros Hpad1 Hpad2 Hc Hr. apply int_ascii_strip.
  by rewrite (strip_padded _ _ _ _ Hpad1 Hpad2 Hc Hr), (strip_fixed _ _ Hc Hr).
Qed.

(** A decimal literal begins with a minus sign or a digit and ends with
    a digit. *)
Lemma decimal_shape (s : string) (d : Decimal.int) :
  NilZero.int_of_string s = Some d ->
  exists c rest, s = String c rest /\ int_space c = false /\
                 rstrip int_space s = s.
Proof.
  destruct s as [|c rest]; [done|]. simpl. intros H.
  exists c, rest. split; [done|].
  destruct (Ascii.eqb_spec c "-") as [-> | Hc].
  - split; [done|].
    destruct (NilZero.uint_of_string rest) as [u|] eqn:Hu; [|done].
    cbn [rstrip]. rewrite (rstrip_literal _ _ Hu). by destruct rest.
  - destruct (uint_of_char c (NilEmpty.uint_of_string rest)) as [u|] eqn:Hu;
      [|done].
    split; [|by apply (rstrip_digits (String c rest) u)].
    destruct (uint_of_char_Some _ _ _ Hu) as [d0 Hrest]. rewrite Hrest in Hu.
    by destruct (digit_char _ _ _ Hu) as (Hsp & _).
Qed.

Lemma ascii_only_app (s t : string) :
  ascii_only (s +:+ t) = ascii_only s && ascii_only t.
Proof.
  induction s as [|c s IH]; [done|]. rewrite append_cons. cbn [ascii_only].
  by rewrite IH, andb_assoc.
Qed.

Lemma ascii_only_blank (pad : string) :
  blank pad = true -> ascii_only pad = true.
Proof.
  induction pad as [|c pad IH]; [done|]. cbn [blank ascii_only].
  intros [Hc Hpad]%andb_prop. rewrite (IH Hpad), andb_true_r.
  destruct c as [[] [] [] [] [] [] [] []]; done.
Qed.

Variable max_str_digits : nat.
Variable int_unicode : string -> option Z.
Variable datetime : Type.
Variable fromisoformat : string -> option datetime.
Variable timestamp : datetime -> result Z.

Local Abbreviation parse :=
  (parse_timestamp max_str_digits int_unicode datetime fromisoformat timestamp).

(** X6. A bound given as a decimal integer, of no more digits than
    [int()] accepts, may be surrounded by the white space of [int()]
    (tab, line feed, vertical tab, form feed, carriage return, space)
    and may carry a plus sign: [parse_timestamp] still returns the
    integer and never consults the ISO parser. *)
Theorem parse_timestamp_padded (pad1 pad2 : string) :
  blank pad1 = true -> blank pad2 = true ->
  (forall s d,
      NilZero.int_of_string s = Some d -> within_limit max_str_digits s ->
      parse (pad1 +:+ s +:+ pad2) = Ok (Z.of_int d)) /\
  (forall s u,
      NilZero.uint_of_string s = Some u -> within_limit max_str_digits s ->
      parse (pad1 +:+ String "+" s +:+ pad2) = Ok (Z.of_uint u)).
Proof.
  intros Hpad1 Hpad2. split.
  - intros s d Hs Hlimit.
    destruct (decimal_shape _ _ Hs) as (c & rest & Heq & Hc & Hr).
    unfold parse_timestamp, py_int.
    rewrite !ascii_only_app, (ascii_only_blank _ Hpad1),
      (ascii_only_blank _ Hpad2), (ascii_only_decimal _ _ Hs).
    cbn [andb]. rewrite Heq in Hr |- *.
    rewrite (int_ascii_padded _ _ _ _ _ Hpad1 Hpad2 Hc Hr), <- Heq.
    rewrite (int_ascii_decimal _ _ _ Hs).
    by rewrite (proj1 (within_limit_spec _ _) Hlimit).
  - intros s u Hs Hlimit.
    assert (Hr : rstrip int_space (String "+" s) = String "+" s).
    { cbn [rstrip]. rewrite (rstrip_literal _ _ Hs). by destruct s. }
    assert (Hplus : int_space "+" = false) by reflexivity.
    unfold parse_timestamp, py_int.
    rewrite !ascii_only_app, (ascii_only_blank _ Hpad1),
      (ascii_only_blank _ Hpad2).
    cbn [ascii_only]. rewrite (ascii_only_literal _ _ Hs). cbn [andb].
    replace (is_ascii "+") with true by reflexivity. cbn [andb].
    rewrite (int_ascii_padded _ _ _ _ _ Hpad1 Hpad2 Hplus Hr).
    rewrite (int_ascii_literal max_str_digits false "+" s u Hplus Hr
               (conj eq_refl Hs)).
    by rewrite (proj1 (within_limit_spec _ _) Hlimit).
Qed.

End ParseTimestampMore.

Lemma parse_timestamp_padded_witness :
  CreatedDateFilter.parse_timestamp 4300 (fun _ => None) unit (fun _ => None)
    (fun _ => Ok 0) (" " +:+ "-42" +:+ "  ") = Ok (-42).
Proof.
  refine (proj1 (parse_timestamp_padded 4300 (fun _ => None) unit
                   (fun _ => None) (fun _ => Ok 0) " " "  " eq_refl eq_refl)
            "-42" (Z.to_int (-42)) eq_refl _).
  right; left. vm_compute. lia.
Defined.

(** ** The timestamp script and the API *)

Section CreatedDateSourceFacts.
Import CreatedDateFilter CreatedDateSource.

Variable environ_key : option string.
Variable requests_get :
  string -> list (string * string) -> response + request_exception.
Variable http_error_msg : response -> string.
Variable str_exn : exn -> string.
Variable json_load : string -> result (list message).

Local Abbreviation from_api :=
  (get_messages_from_api environ_key requests_get http_error_msg).
Local Abbreviation load :=
  (load_messages environ_key requests_get http_error_msg str_exn json_load).

Local Abbreviation effective_key := (effective_key environ_key).

Lemma raise_for_status_raises (r : response) (e : exn) :
  MetadataFilter.raise_for_status http_error_msg r = Raise e ->
  exists re, e = RequestError re.
Proof.
  unfold MetadataFilter.raise_for_status.
  destruct ((400 <=? status_code r) && (status_code r <? 600)); [|done].
  intros [= <-]. eauto.
Qed.

(** With a key, one request is made, and a failure is a
    [RequestException]. *)
Lemma from_api_with_key (api_key : option string) (c : ascii) (rest : string) :
  effective_key api_key = Some (String c rest) ->
  (from_api api_key).1 = [api_request (String c rest)] /\
  forall e, (from_api api_key).2 = Raise e -> exists re, e = RequestError re.
Proof.
  unfold get_messages_from_api, effective_key. intros ->. cbn [fst snd].
  split; [done|]. intros e.
  destruct (requests_get _ _) as [r | re]; cbn [rbind]; [|intros [= <-]; eauto].
  destruct (MetadataFilter.raise_for_status http_error_msg r) as [[] | e']
    eqn:Hstatus; cbn [rbind]; [done|].
  intros [= <-]. by apply (raise_for_status_raises r).
Qed.

Lemma from_api_without_key (api_key : option string) :
  effective_key api_key = None \/ effective_key api_key = Some "" ->
  from_api api_key = ([], Raise ValueError).
Proof.
  unfold get_messages_from_api, effective_key. by intros [-> | ->].
Qed.


Variable max_str_digits : nat.
Variable int_unicode : string -> option Z.
Variable datetime : Type.
Variable fromisoformat : string -> option datetime.
Variable timestamp : datetime -> result Z.
Variable write_file : string -> option string.

Local Abbreviation parse :=
  (parse_timestamp max_str_digits int_unicode datetime fromisoformat timestamp).
Local Abbreviation script :=
  (main max_str_digits int_unicode datetime fromisoformat timestamp
     write_file (fun a => (load a).2)).

Lemma load_from_api (a : args) :
  no_input a ->
  load a =
  match from_api (arg_api_key a) with
  | (sent, Raise (SystemExit code)) => (sent, Raise (SystemExit code))
  | (sent, Raise e) =>
      (sent ++ [Stderr ("Error fetching messages from API: " +:+ str_exn e)],
       Raise (SystemExit 1))
  | (sent, Ok messages) => (sent, Ok messages)
  end.
Proof. unfold load_messages. by intros [-> | ->]. Qed.

(** Without [--input], loading gives the messages or ends in exit
    code 1. *)
Lemma load_outcome (a : args) (e : exn) :
  no_input a -> (load a).2 = Raise e -> e = SystemExit 1.
Proof.
  intros Hin. rewrite (load_from_api _ Hin).
  destruct (from_api (arg_api_key a)) as [sent [messages | e']] eqn:Hapi;
    [done|].
  assert (Hnot : forall code, e' <> SystemExit code).
  { intros code ->.
    destruct (effective_key (arg_api_key a)) as [[|c rest]|] eqn:Hkey.
    - rewrite from_api_without_key in Hapi by eauto. congruence.
    - destruct (from_api_with_key _ _ _ Hkey) as [_ Hre].
      rewrite Hapi in Hre. by destruct (Hre _ eq_refl).
    - rewrite from_api_without_key in Hapi by eauto. congruence. }
  destruct e'; cbn [snd]; try (by intros [= <-]).
  by destruct (Hnot code).
Qed.



End CreatedDateSourceFacts.




(** ** [get_messages]: failures, order of the constraints, composition *)

Section MetadataFilterMore.
Import MetadataFilter.

Lemma matches_raises (v : value) (filters : list (string * string)) (e : exn) :
  _matches_metadata_filters v filters = Raise e -> e = TypeError.
Proof.
  destruct v as [| n | s | d].
  - destruct filters as [|[key value] rest]; [done | by intros [= <-]].
  - destruct filters as [|[key value] rest]; [done | by intros [= <-]].
  - induction filters as [|[key value] rest IH]; [done|].
    cbn [_matches_metadata_filters not_in rbind].
    destruct (is_substring key s); cbn [negb getitem rbind]; [|done].
    by intros [= <-].
  - by rewrite matches_dict.
Qed.

(** X10. [_matches_metadata_filters] raises nothing but [TypeError],
    and only for a metadata that is no mapping, met with at least one
    constraint.  On a mapping it answers for every list of constraints:
    its lookup [message_metadata[key]] never raises [KeyError].
    Without a constraint it answers [True] for every metadata. *)
Theorem matches_metadata_filters_raises (message_metadata : value)
    (filters : list (string * string)) :
  (forall e,
      _matches_metadata_filters message_metadata filters = Raise e ->
      e = TypeError /\ filters <> [] /\
      forall d, message_metadata <> VDict d) /\
  (forall d, exists b, _matches_metadata_filters (VDict d) filters = Ok b) /\
  _matches_metadata_filters message_metadata [] = Ok true.
Proof.
  split; [|split].
  - intros e He. split; [by apply (matches_raises _ _ _ He)|]. split.
    + intros ->. by destruct message_metadata.
    + intros d ->. by rewrite matches_dict in He.
  - intros d. rewrite matches_dict. eauto.
  - by destruct message_metadata.
Qed.

(** X11. With at least one constraint, a message whose metadata is
    [null] or a number makes the filter raise [TypeError], whatever
    follows it, once the messages before it have passed; without a
    constraint the same list is returned whole. *)
Theorem filter_by_metadata_null (before after : list message) (m : message)
    (filters : list (string * string)) :
  filters <> [] ->
  forallb metadata_typed before = true ->
  m !! "metadata" = Some VNone \/ (exists n, m !! "metadata" = Some (VInt n)) ->
  filter_by_metadata (before ++ m :: after) (Some filters) = Raise TypeError /\
  filter_by_metadata (before ++ m :: after) (Some [])
  = Ok (before ++ m :: after).
Proof.
  intros Hne Htyped Hm. split; [|done].
  destruct filters as [|[key value] rest]; [done|].
  unfold filter_by_metadata. clear Hne. generalize (@nil message).
  induction before as [|b before IH]; intros filtered.
  - cbn [app filter_loop]. unfold get_metadata.
    by destruct Hm as [-> | [n ->]].
  - cbn [forallb] in Htyped. apply andb_prop in Htyped as [Hb Hbefore].
    cbn [app filter_loop]. rewrite (get_metadata_typed _ Hb), matches_dict.
    cbn [rbind]. fold (meets ((key, value) :: rest) b).
    destruct (meets ((key, value) :: rest) b); by apply IH.
Qed.

Lemma filter_by_metadata_null_witness :
  filter_by_metadata
    ([tagged {[ "user_email" := "a@b.com" ]}] ++ null_metadata :: [])
    (Some [("user_email", "a@b.com")]) = Raise TypeError.
Proof.
  refine (proj1 (filter_by_metadata_null
            [tagged {[ "user_email" := "a@b.com" ]}] [] null_metadata
            [("user_email", "a@b.com")] _ eq_refl (or_introl eq_refl))).
  done.
Defined.

Lemma meets_app (F1 F2 : list (string * string)) (m : message) :
  meets (F1 ++ F2) m = meets F1 m && meets F2 m.
Proof. unfold meets. apply forallb_app. Qed.

(** X12. On well-typed messages the result depends on the set of
    constraints only: their order and their repetitions do not
    matter. *)
Theorem filter_by_metadata_same_set (messages : list message)
    (F F' : list (string * string)) :
  (forall kv, kv ∈ F <-> kv ∈ F') ->
  forallb metadata_typed messages = true ->
  filter_by_metadata messages (Some F) = filter_by_metadata messages (Some F').
Proof.
  intros Hsame Htyped. rewrite !filter_by_metadata_eq by done. f_equal.
  apply list_filter_ext_in. intros m. apply eq_true_iff_eq.
  rewrite !meets_spec. split; intros H key value Hin; apply H;
    by apply Hsame.
Qed.

Lemma filter_by_metadata_same_set_witness :
  filter_by_metadata two_messages
    (Some [("user_email", "a@b.com"); ("team", "docs")])
  = filter_by_metadata two_messages
      (Some [("team", "docs"); ("user_email", "a@b.com"); ("team", "docs")]).
Proof.
  apply filter_by_metadata_same_set; [|reflexivity].
  intros kv. rewrite !elem_of_cons. rewrite !elem_of_nil. tauto.
Defined.

(** X13. Filtering with the constraints [F1] and then the result with
    [F2] is filtering once with both: constraints accumulate as a
    conjunction. *)
Theorem filter_by_metadata_app (messages : list message)
    (F1 F2 : list (string * string)) :
  forallb metadata_typed messages = true ->
  (let* kept := filter_by_metadata messages (Some F1) in
   filter_by_metadata kept (Some F2))
  = filter_by_metadata messages (Some (F1 ++ F2)).
Proof.
  intros Htyped. rewrite !filter_by_metadata_eq by done. cbn [rbind].
  rewrite filter_by_metadata_eq by by apply forallb_list_filter.
  rewrite list_filter_filter. f_equal.
  apply list_filter_ext_in. intros m. by rewrite meets_app.
Qed.

Lemma filter_by_metadata_app_witness :
  (let* kept := filter_by_metadata two_messages
                  (Some [("user_email", "a@b.com")]) in
   filter_by_metadata kept (Some [("team", "docs")]))
  = filter_by_metadata two_messages
      (Some ([("user_email", "a@b.com")] ++ [("team", "docs")])).
Proof. apply filter_by_metadata_app. reflexivity. Defined.

(** X14. [__init__] takes the key passed unless it is missing or empty,
    in which case it takes the key of the environment; it raises
    [ValueError] exactly when neither is a non-empty key, and the
    client it builds bears its non-empty key in the [Authorization]
    header. *)
Theorem init_key (api_key environ_key : option string) :
  (forall key, key <> "" -> api_key = Some key ->
     __init__ api_key environ_key = Ok (client_of key)) /\
  (forall key, key <> "" -> api_key = None \/ api_key = Some "" ->
     environ_key = Some key ->
     __init__ api_key environ_key = Ok (client_of key)) /\
  (__init__ api_key environ_key = Raise ValueError <->
   (api_key = None \/ api_key = Some "") /\
   (environ_key = None \/ environ_key = Some "")) /\
  (forall client,
      __init__ api_key environ_key = Ok client ->
      MetadataFilter.api_key client <> "" /\
      client = client_of (MetadataFilter.api_key client)).
Proof.
  unfold __init__, str_or, client_of. split; [|split; [|split]].
  - intros [|c rest] Hne ->; done.
  - intros [|c rest] Hne [-> | ->] ->; done.
  - destruct api_key as [[|c rest]|], environ_key as [[|c' rest']|];
      cbn; split; try done; try tauto;
      intros [[H | H] [H' | H']]; done.
  - intros client.
    destruct api_key as [[|c rest]|], environ_key as [[|c' rest']|];
      cbn; try done; by intros [= <-].
Qed.

Lemma init_key_witness :
  __init__ (Some "") (Some "sk-env") = Ok (client_of "sk-env").
Proof.
  refine (proj1 (proj2 (init_key (Some "") (Some "sk-env"))) "sk-env" _ _ eq_refl);
    [done | by right].
Defined.

End MetadataFilterMore.

(** ** The [--metadata] arguments *)

Section ParseMetadata.
Import MetadataMain.

Lemma lstrip_head (s : string) (c : ascii) (rest : string) :
  lstrip is_space s = String c rest -> is_space c = false.
Proof.
  induction s as [|c' s IH]; [done|]. cbn [lstrip].
  destruct (is_space c') eqn:Hc'; [done|]. by intros [= <- _].
Qed.

Lemma rstrip_cons (c : ascii) (rest : string) :
  rstrip is_space (String c rest) =
  match rstrip is_space rest with
  | EmptyString => if is_space c then EmptyString else String c EmptyString
  | rest' => String c rest'
  end.
Proof. reflexivity. Qed.

Lemma rstrip_rstrip (s : string) : rstrip is_space (rstrip is_space s) = rstrip is_space s.
Proof.
  induction s as [|c s IH]; [done|]. rewrite rstrip_cons.
  destruct (rstrip is_space s) as [|c' r] eqn:Hr.
  - destruct (is_space c) eqn:Hc; [done|]. rewrite rstrip_cons.
    by rewrite Hc.
  - by rewrite (rstrip_cons c (String c' r)), IH.
Qed.

Lemma rstrip_head (c : ascii) (rest : string) :
  is_space c = false -> exists rest', rstrip is_space (String c rest) = String c rest'.
Proof.
  intros Hc. rewrite rstrip_cons. destruct (rstrip is_space rest); rewrite ?Hc; eauto.
Qed.

(** [strip] leaves a stripped text as it is. *)
Lemma strip_strip (s : string) : strip is_space (strip is_space s) = strip is_space s.
Proof.
  unfold strip. destruct (lstrip is_space s) as [|c rest] eqn:Hl; [done|].
  apply lstrip_head in Hl.
  destruct (rstrip_head c rest Hl) as [rest' Hr].
  rewrite <- (rstrip_rstrip (String c rest)) at 2.
  f_equal. rewrite Hr. cbn [lstrip]. by rewrite Hl.
Qed.

Lemma split_once_None (sep : ascii) (s : string) :
  split_once sep s = None <-> occurs sep s = false.
Proof.
  induction s as [|c s IH]; [done|]. cbn [split_once occurs].
  destruct (Ascii.eqb c sep); [done|]. cbn [orb]. rewrite <- IH.
  by destruct (split_once sep s) as [[]|].
Qed.

Lemma split_once_Some (sep : ascii) (s before after : string) :
  split_once sep s = Some (before, after) <->
  s = before +:+ String sep after /\ occurs sep before = false.
Proof.
  revert before after. induction s as [|c s IH]; intros before after.
  - split; [done|]. intros [H _]. by destruct before.
  - cbn [split_once]. destruct (Ascii.eqb_spec c sep) as [-> | Hc].
    + split.
      * by intros [= <- <-].
      * intros [H Hocc]. destruct before as [|c' before].
        -- by injection H as ->.
        -- rewrite append_cons in H. injection H as <- _.
           cbn [occurs] in Hocc. by rewrite Ascii.eqb_refl in Hocc.
    + assert (Hsep : Ascii.eqb c sep = false) by by apply Ascii.eqb_neq.
      assert (Hback : forall b a : string,
        String c s = before +:+ String sep after ->
        occurs sep before = false ->
        (forall before' after' : string,
            s = before' +:+ String sep after' ->
            occurs sep before' = false -> b = before' /\ a = after') ->
        (String c b, a) = (before, after)).
      { intros b a H Hocc Huniq. destruct before as [|c' before].
        - injection H as -> _. by rewrite Ascii.eqb_refl in Hsep.
        - rewrite append_cons in H. injection H as <- ->.
          cbn [occurs] in Hocc. rewrite Hsep in Hocc.
          by destruct (Huniq before after eq_refl Hocc) as [-> ->]. }
      destruct (split_once sep s) as [[b a]|] eqn:Hs.
      * split.
        -- intros [= <- <-].
           destruct (proj1 (IH b a) eq_refl) as [-> Hocc].
           rewrite append_cons. cbn [occurs]. by rewrite Hsep.
        -- intros [H Hocc]. f_equal. apply Hback; [done..|].
           intros before' after' Hs' Hocc'.
           by pose proof (proj2 (IH before' after') (conj Hs' Hocc'))
             as [= -> ->].
      * split; [done|]. intros [H Hocc]. exfalso.
        destruct before as [|c' before].
        -- injection H as -> _. by rewrite Ascii.eqb_refl in Hsep.
        -- rewrite append_cons in H. injection H as <- ->.
           cbn [occurs] in Hocc. rewrite Hsep in Hocc.
           by pose proof (proj2 (IH before after) (conj eq_refl Hocc)).
Qed.

(** [dict_set] on the items of a dict. *)
Lemma dict_set_keys_fresh (d : list (string * string)) (key value : string) :
  key ∉ map fst d -> dict_set d key value = d ++ [(key, value)].
Proof.
  induction d as [|[k v] d IH]; [done|]. cbn [map fst dict_set app].
  intros [Hk Hd]%not_elem_of_cons.
  destruct (String.eqb_spec k key); [done|]. by rewrite IH.
Qed.

Lemma dict_set_keys (d : list (string * string)) (key value : string) :
  map fst (dict_set d key value) =
  if bool_decide (key ∈ map fst d) then map fst d else map fst d ++ [key].
Proof.
  induction d as [|[k v] d IH]; [done|]. cbn [map fst dict_set].
  destruct (String.eqb_spec k key) as [-> | Hne].
  - rewrite bool_decide_eq_true_2 by by left. done.
  - cbn [map fst]. rewrite IH. case_bool_decide as Hin.
    + rewrite bool_decide_eq_true_2 by by right. done.
    + rewrite bool_decide_eq_false_2; [done|].
      by intros [? | ?]%elem_of_cons.
Qed.

Lemma dict_set_NoDup (d : list (string * string)) (key value : string) :
  NoDup (map fst d) -> NoDup (map fst (dict_set d key value)).
Proof.
  intros Hd. rewrite dict_set_keys. case_bool_decide as Hin; [done|].
  apply NoDup_app. split; [done|]. split.
  - intros k Hk ->%list_elem_of_singleton. done.
  - apply NoDup_singleton.
Qed.

Lemma dict_set_elem (d : list (string * string)) (key value : string)
    (kv : string * string) :
  kv ∈ dict_set d key value -> kv = (key, value) \/ kv ∈ d.
Proof.
  induction d as [|[k' v'] d IH]; cbn [dict_set].
  - intros ->%list_elem_of_singleton. by left.
  - destruct (String.eqb_spec k' key) as [-> | Hne].
    + intros [-> | Hin]%elem_of_cons; [by left | right; by right].
    + intros [-> | Hin]%elem_of_cons; [right; by left|].
      apply IH in Hin as [-> | Hin]; [by left | right; by right].
Qed.

Lemma dict_set_here (d : list (string * string)) (key value : string) :
  (key, value) ∈ dict_set d key value.
Proof.
  induction d as [|[k' v'] d IH]; cbn [dict_set]; [by left|].
  destruct (String.eqb_spec k' key) as [-> | Hne]; [by left | by right].
Qed.

Lemma NoDup_keys_unique (d : list (string * string)) (key v v' : string) :
  NoDup (map fst d) -> (key, v) ∈ d -> (key, v') ∈ d -> v = v'.
Proof.
  induction d as [|[k0 v0] d IH]; cbn [map fst].
  - by intros _ Hin%not_elem_of_nil.
  - intros [Hk Hd]%NoDup_cons Hv Hv'.
    assert (Hkeys : forall w, (key, w) ∈ d -> key ∈ map fst d).
    { intros w Hw. apply list_elem_of_In, in_map_iff.
      exists (key, w). split; [done | by apply list_elem_of_In]. }
    apply elem_of_cons in Hv as [Hv | Hv];
      apply elem_of_cons in Hv' as [Hv' | Hv'].
    + congruence.
    + injection Hv as <- _. by destruct Hk; apply (Hkeys v').
    + injection Hv' as <- _. by destruct Hk; apply (Hkeys v).
    + by apply IH.
Qed.

Lemma ascii_only_lstrip (blank : ascii -> bool) (s : string) :
  ascii_only s = true -> ascii_only (lstrip blank s) = true.
Proof.
  induction s as [|c s IH]; [done|]. cbn [ascii_only lstrip].
  intros [Hc Hs]%andb_prop. destruct (blank c); [by apply IH|].
  cbn [ascii_only]. by rewrite Hc, Hs.
Qed.

Lemma ascii_only_rstrip (blank : ascii -> bool) (s : string) :
  ascii_only s = true -> ascii_only (rstrip blank s) = true.
Proof.
  induction s as [|c s IH]; [done|]. cbn [ascii_only rstrip].
  intros [Hc Hs]%andb_prop. specialize (IH Hs).
  destruct (rstrip blank s) as [|c' r].
  - destruct (blank c); [done|]. cbn [ascii_only]. by rewrite Hc.
  - cbn [ascii_only] in *. by rewrite Hc, IH.
Qed.

(** On a string of ASCII characters [s.strip()] removes the white space
    of [is_space], and leaves a string of ASCII characters. *)
Lemma str_strip_ascii (strip_unicode : string -> string) (s : string) :
  ascii_only s = true ->
  str_strip strip_unicode s = strip is_space s /\
  ascii_only (strip is_space s) = true.
Proof.
  intros Hs. unfold str_strip. rewrite Hs. split; [done|].
  by apply ascii_only_rstrip, ascii_only_lstrip.
Qed.

Section Arguments.

Variable strip_unicode : string -> string.

Local Abbreviation py_strip := (str_strip strip_unicode).
Local Abbreviation parse_loop := (parse_loop strip_unicode).
Local Abbreviation parse_metadata := (parse_metadata strip_unicode).

Lemma parse_loop_app (items more : list string)
    (acc : list (string * string)) :
  parse_loop (items ++ more) acc = parse_loop more (parse_loop items acc).
Proof.
  revert acc. induction items as [|item items IH]; intros acc; [done|].
  cbn [app MetadataMain.parse_loop].
  by destruct (split_once "=" item) as [[key value]|].
Qed.

Lemma parse_loop_inv (P : string * string -> Prop) (items : list string) :
  (forall item before after,
      item ∈ items -> split_once "=" item = Some (before, after) ->
      P (py_strip before, py_strip after)) ->
  forall acc,
    NoDup (map fst acc) -> Forall P acc ->
    NoDup (map fst (parse_loop items acc)) /\ Forall P (parse_loop items acc).
Proof.
  induction items as [|item items IH]; intros HP acc Hnd Hacc; [done|].
  cbn [MetadataMain.parse_loop].
  assert (HP' : forall item' before after,
            item' ∈ items -> split_once "=" item' = Some (before, after) ->
            P (py_strip before, py_strip after)).
  { intros item' before after Hin. apply HP. by right. }
  destruct (split_once "=" item) as [[key value]|] eqn:Hitem;
    [|by apply IH].
  apply IH; [done | by apply dict_set_NoDup |].
  apply Forall_forall. intros kv [-> | Hin]%dict_set_elem.
  - apply (HP item); [by left | done].
  - by apply (proj1 (Forall_forall _ _) Hacc).
Qed.

Lemma parse_loop_ignores (items : list string) :
  forall acc,
    parse_loop items acc = parse_loop (List.filter (occurs "=") items) acc.
Proof.
  induction items as [|item items IH]; intros acc; [done|].
  cbn [MetadataMain.parse_loop List.filter].
  destruct (split_once "=" item) as [[key value]|] eqn:Hitem.
  - replace (occurs "=" item) with true.
    + cbn [MetadataMain.parse_loop]. by rewrite Hitem.
    + symmetry. apply not_false_iff_true. intros Hocc%split_once_None.
      congruence.
  - apply split_once_None in Hitem as ->. apply IH.
Qed.

(** X15. The constraints read from [--metadata] form a dict: no key
    occurs twice.  Every key and every value is what [strip()] leaves
    of the two parts of an argument split at its first ['=']; the
    arguments without ['='] are ignored.  From an argument of ASCII
    characters, key and value come without the white space of
    [is_space] at their ends. *)
Theorem parse_metadata_sound (items : list string) :
  let d := parse_metadata (Some items) in
  d = parse_metadata (Some (List.filter (occurs "=") items)) /\
  NoDup (map fst d) /\
  forall key value,
    (key, value) ∈ d ->
    exists item before after,
      item ∈ items /\ item = before +:+ String "=" after /\
      occurs "=" before = false /\
      key = py_strip before /\ value = py_strip after /\
      (ascii_only item = true ->
       key = strip is_space before /\ value = strip is_space after /\
       strip is_space key = key /\ strip is_space value = value).
Proof.
  cbn. split; [apply parse_loop_ignores|].
  destruct (parse_loop_inv
    (fun kv =>
       exists item before after,
         item ∈ items /\ item = before +:+ String "=" after /\
         occurs "=" before = false /\
         kv.1 = py_strip before /\ kv.2 = py_strip after /\
         (ascii_only item = true ->
          kv.1 = strip is_space before /\ kv.2 = strip is_space after /\
          strip is_space kv.1 = kv.1 /\ strip is_space kv.2 = kv.2))
    items) with (acc := @nil (string * string))
    as [Hnd Hall].
  - intros item before after Hin Hsplit. cbn [fst snd].
    apply split_once_Some in Hsplit as [-> Hocc].
    exists (before +:+ String "=" after), before, after.
    do 5 (split; [done|]).
    rewrite ascii_only_app. cbn [ascii_only].
    intros [Hb [_ Ha]%andb_prop]%andb_prop.
    destruct (str_strip_ascii strip_unicode _ Hb) as [-> _].
    destruct (str_strip_ascii strip_unicode _ Ha) as [-> _].
    by rewrite !strip_strip.
  - constructor.
  - constructor.
  - split; [done|]. intros key value Hin.
    by apply (proj1 (Forall_forall _ _) Hall (key, value)).
Qed.

(** X16. When a key is given several times the last value wins: after
    an argument [key=value] at the end, the dict holds the stripped key
    with the stripped value and with no other value. *)
Theorem parse_metadata_last (items : list string) (key value : string) :
  occurs "=" key = false ->
  let d := parse_metadata (Some (items ++ [key +:+ String "=" value])) in
  (py_strip key, py_strip value) ∈ d /\
  forall v, (py_strip key, v) ∈ d -> v = py_strip value.
Proof.
  intros Hkey. cbn. rewrite parse_loop_app. cbn [MetadataMain.parse_loop].
  rewrite (proj2 (split_once_Some "=" _ key value) (conj eq_refl Hkey)).
  assert (Hnd : NoDup (map fst (parse_loop items []))).
  { apply (parse_loop_inv (fun _ => True) items); [done | constructor..]. }
  split; [apply dict_set_here|].
  intros v Hv.
  apply (NoDup_keys_unique _ (py_strip key) v (py_strip value)) in Hv;
    [done | by apply dict_set_NoDup | apply dict_set_here].
Qed.

Lemma parse_loop_render (d : list (string * string)) :
  forall acc,
    NoDup (map fst (acc ++ d)) ->
    Forall (fun kv => occurs "=" kv.1 = false /\
                      py_strip kv.1 = kv.1 /\ py_strip kv.2 = kv.2) d ->
    parse_loop (map assignment d) acc = acc ++ d.
Proof.
  induction d as [|[key value] d IH]; intros acc Hnd Hd.
  - by rewrite app_nil_r.
  - apply Forall_cons in Hd as [(Hocc & Hk & Hv) Hd]. cbn [fst snd] in *.
    cbn [map MetadataMain.parse_loop]. unfold assignment at 1. cbn [fst snd].
    rewrite (proj2 (split_once_Some "=" _ key value) (conj eq_refl Hocc)).
    rewrite Hk, Hv.
    assert (Hfresh : key ∉ map fst acc).
    { rewrite map_app in Hnd. apply NoDup_app in Hnd as (_ & Hdisj & _).
      intros Hin. apply (Hdisj key Hin). cbn [map fst]. by left. }
    rewrite (dict_set_keys_fresh _ _ _ Hfresh).
    rewrite IH; [by rewrite <- app_assoc | by rewrite <- app_assoc | done].
Qed.

(** X17. Writing a dict as arguments [key=value] and reading them back
    gives the dict again, in its order, when no key contains ['='] and
    [strip()] leaves the keys and the values as they are; a value may
    contain ['=']. *)
Theorem parse_metadata_round_trip (d : list (string * string)) :
  NoDup (map fst d) ->
  Forall (fun kv => occurs "=" kv.1 = false /\
                    py_strip kv.1 = kv.1 /\ py_strip kv.2 = kv.2) d ->
  parse_metadata (Some (map assignment d)) = d.
Proof. intros Hnd Hd. cbn. by rewrite parse_loop_render. Qed.

End Arguments.

End ParseMetadata.

Lemma parse_metadata_sound_witness :
  NoDup (map fst (MetadataMain.parse_metadata (fun s => s)
                    (Some ["team = docs"; "verbose"; "team=ops"]))).
Proof.
  exact (proj1 (proj2 (parse_metadata_sound (fun s => s)
                         ["team = docs"; "verbose"; "team=ops"]))).
Defined.

Lemma parse_metadata_last_witness :
  ("team", "docs") ∈
  MetadataMain.parse_metadata (fun s => s)
    (Some (["team=ops"; "user_email = a@b.com"]
           ++ ["team " +:+ String "=" " docs"])).
Proof.
  exact (proj1 (parse_metadata_last (fun s => s)
                  ["team=ops"; "user_email = a@b.com"]
                  "team " " docs" eq_refl)).
Defined.

Lemma parse_metadata_round_trip_witness :
  MetadataMain.parse_metadata (fun s => s)
    (Some (map assignment [("user_email", "a@b.com"); ("query", "a=b")]))
  = [("user_email", "a@b.com"); ("query", "a=b")].
Proof.
  apply parse_metadata_round_trip.
  - cbn [map fst]. apply NoDup_cons. split.
    + by intros ?%list_elem_of_singleton.
    + apply NoDup_singleton.
  - repeat constructor.
Defined.

(** ** [main] of the metadata script *)

Section MetadataMainFacts.
Import MetadataFilter MetadataMain.

Variable strip_unicode : string -> string.
Variable environ_key : option string.
Variable requests_get :
  string -> list (string * string) -> params -> response + request_exception.
Variable http_error_msg : response -> string.
Variable str_exn : exn -> string.
Variable now : string.
Variable write_file : string -> option string.

Local Abbreviation script :=
  (main strip_unicode environ_key requests_get http_error_msg str_exn now
     write_file).
Local Abbreviation parse_metadata := (parse_metadata strip_unicode).
Local Abbreviation fetch := (get_messages requests_get http_error_msg).

Lemma main_with_client (a : args) (client : OpenAIMessageClient) :
  __init__ (arg_api_key a) environ_key = Ok client ->
  script a =
  map Event (fetch client (arg_thread_id a)
               (Some (parse_metadata (arg_metadata a))) (arg_limit a)
               (arg_order a)).1 ++
  match (fetch client (arg_thread_id a)
           (Some (parse_metadata (arg_metadata a))) (arg_limit a)
           (arg_order a)).2 with
  | Raise e => [say ("Error: " +:+ str_exn e)]
  | Ok [] => [say "No messages found matching the criteria"]
  | Ok messages =>
      match write_file (export_path now a) with
      | None =>
          [WriteJson (export_path now a) messages;
           say ("Exported " +:+ pretty (length messages) +:+ " messages to "
                +:+ export_path now a);
           say ("Successfully retrieved " +:+ pretty (length messages)
                +:+ " messages")]
      | Some msg => [say ("Error: " +:+ str_exn (OSError msg))]
      end
  end.
Proof.
  intros Hinit. unfold main. rewrite Hinit.
  destruct (fetch _ _ _ _ _) as [events [[|m messages] | e]]; [done| |done].
  unfold export_messages_to_json. fold (export_path now a).
  by destruct (write_file (export_path now a)).
Qed.

(** X18. Without a usable key [main] prints one error line and sends no
    request.  With a key, a request that fails (no connection, or an
    answer with an error status) ends, after the error lines of
    [get_messages], with the report that no messages were found, as
    for a thread without matching messages; no file is written. *)
Theorem main_failures_reported (a : args) :
  ((arg_api_key a = None \/ arg_api_key a = Some "") ->
   (environ_key = None \/ environ_key = Some "") ->
   script a = [say ("Error: " +:+ str_exn ValueError)]) /\
  (forall client failure,
      __init__ (arg_api_key a) environ_key = Ok client ->
      (requests_get (messages_url client (arg_thread_id a)) (headers client)
         (sent_params (arg_limit a) (arg_order a)) = inr failure \/
       exists r,
         requests_get (messages_url client (arg_thread_id a)) (headers client)
           (sent_params (arg_limit a) (arg_order a)) = inl r /\
         400 <= status_code r < 600 /\
         failure = {| exc_str := http_error_msg r; exc_response := Some r |}) ->
      script a =
      Event (Get (messages_url client (arg_thread_id a)) (headers client)
               (sent_params (arg_limit a) (arg_order a)))
      :: map Event (get_messages_except http_error_msg failure)
      ++ [say "No messages found matching the criteria"]).
Proof.
  split.
  - intros Hkey Henv. unfold main, __init__, str_or.
    by destruct Hkey as [-> | ->], Henv as [-> | ->].
  - intros client failure Hinit Hfail.
    rewrite (main_with_client _ _ Hinit).
    destruct Hfail as [Hget | (r & Hget & Hstatus & ->)].
    + by rewrite (get_messages_catches _ _ _ _ _ _ _ _ Hget).
    + rewrite (get_messages_catches_status _ _ _ _ _ _ _ _ Hget Hstatus).
      cbn [fst snd map app]. unfold get_messages_except, response_bool,
        raise_for_status. cbn [exc_str exc_response].
      replace ((400 <=? status_code r) && (status_code r <? 600)) with true
        by (symmetry; apply andb_true_intro; lia).
      done.
Qed.

(** X19. [main] writes a file only for a non-empty list of messages
    returned by [get_messages], and when the file can be written: the
    file holds all of them, it is the one of [--output] or, without
    it, one named after the time, and the two lines that follow report
    their number.  When the file cannot be written, [main] prints the
    error of the [OSError] after the events of [get_messages], and
    neither of the two lines. *)
Theorem main_export (a : args) :
  (forall path data,
      WriteJson path data ∈ script a ->
      data <> [] /\ path = export_path now a /\ write_file path = None /\
      exists client events,
        __init__ (arg_api_key a) environ_key = Ok client /\
        fetch client (arg_thread_id a) (Some (parse_metadata (arg_metadata a)))
          (arg_limit a) (arg_order a) = (events, Ok data) /\
        script a =
        map Event events ++
        [WriteJson path data;
         say ("Exported " +:+ pretty (length data) +:+ " messages to "
              +:+ path);
         say ("Successfully retrieved " +:+ pretty (length data)
              +:+ " messages")]) /\
  (forall client events data msg,
      __init__ (arg_api_key a) environ_key = Ok client ->
      fetch client (arg_thread_id a) (Some (parse_metadata (arg_metadata a)))
        (arg_limit a) (arg_order a) = (events, Ok data) ->
      data <> [] ->
      write_file (export_path now a) = Some msg ->
      script a =
      map Event events ++ [say ("Error: " +:+ str_exn (OSError msg))]).
Proof.
  split.
  - intros path data.
    destruct (__init__ (arg_api_key a) environ_key) as [client | e] eqn:Hinit.
    2:{ unfold main. rewrite Hinit. by intros ?%list_elem_of_singleton. }
    rewrite (main_with_client _ _ Hinit).
    destruct (fetch _ _ _ _ _) as [events outcome] eqn:Hfetch. cbn [fst snd].
    intros [Hin | Hin]%elem_of_app.
    { apply list_elem_of_In, in_map_iff in Hin as (ev & Hev & _). done. }
    destruct outcome as [[|m messages] | e].
    + by apply list_elem_of_singleton in Hin.
    + destruct (write_file (export_path now a)) eqn:Hwrite.
      { by apply list_elem_of_singleton in Hin. }
      apply elem_of_cons in Hin as [[= -> ->] | Hin].
      * split; [done|]. split; [done|]. split; [done|].
        by exists client, events.
      * apply elem_of_cons in Hin as [Hin | Hin]; [done|].
        by apply list_elem_of_singleton in Hin.
    + by apply list_elem_of_singleton in Hin.
  - intros client events data msg Hinit Hfetch Hdata Hwrite.
    rewrite (main_with_client _ _ Hinit), Hfetch, Hwrite. cbn [fst snd].
    by destruct data.
Qed.

End MetadataMainFacts.

Lemma main_failures_reported_witness :
  MetadataMain.main (fun s => s) None refusing_server client_error_msg
    exn_name "20240101_000000" (fun _ => None) one_constraint
  = [MetadataMain.Event
       (MetadataFilter.Get (messages_url demo_client "thread_1")
          (MetadataFilter.headers demo_client) (sent_params 100 "desc"));
     MetadataMain.say "Error retrieving messages: 404 Client Error";
     MetadataMain.say "No messages found matching the criteria"].
Proof.
  refine (proj2 (main_failures_reported (fun s => s) None refusing_server
                   client_error_msg exn_name "20240101_000000"
                   (fun _ => None) one_constraint)
            demo_client
            {| exc_str := "404 Client Error"; exc_response := Some not_found |}
            eq_refl _).
  right. exists not_found. split; [reflexivity|]. split; [|reflexivity].
  cbn [status_code not_found]. lia.
Defined.

Lemma main_export_witness :
  (exists events,
      MetadataMain.main (fun s => s) None answering_server client_error_msg
        exn_name "20240101_000000" (fun _ => None) one_constraint
      = map MetadataMain.Event events ++
        [MetadataMain.WriteJson "openai_messages_20240101_000000.json"
           [tagged {[ "user_email" := "a@b.com" ]}];
         MetadataMain.say
           "Exported 1 messages to openai_messages_20240101_000000.json";
         MetadataMain.say "Successfully retrieved 1 messages"]) /\
  (exists events,
      MetadataMain.main (fun s => s) None answering_server client_error_msg
        exn_name "20240101_000000" (fun _ => Some "Permission denied")
        one_constraint
      = map MetadataMain.Event events ++
        [MetadataMain.say "Error: Permission denied"]).
Proof.
  split.
  - destruct (proj1 (main_export (fun s => s) None answering_server
                       client_error_msg exn_name "20240101_000000"
                       (fun _ => None) one_constraint)
                "openai_messages_20240101_000000.json"
                [tagged {[ "user_email" := "a@b.com" ]}])
      as (_ & _ & _ & client & events & _ & _ & Hrun).
    + vm_compute. right. left.
    + exists events. exact Hrun.
  - eexists.
    refine (proj2 (main_export (fun s => s) None answering_server
                     client_error_msg exn_name "20240101_000000"
                     (fun _ => Some "Permission denied") one_constraint)
              demo_client _ [tagged {[ "user_email" := "a@b.com" ]}]
              "Permission denied" eq_refl eq_refl _ eq_refl).
    done.
Defined.

(** ** The conversation driver: waiting without end, the transcript *)

Section ThreadDemoMore.
Import ThreadDemo.

Lemma total_sleep_waiting (observed : nat -> run) (n : nat) :
  forall from, total_sleep (waiting observed from n) = 2 * Z.of_nat n.
Proof.
  induction n as [|n IH]; intros from; [done|].
  cbn [waiting total_sleep]. rewrite IH. lia.
Qed.

(** X20. The loop has no limit of its own: while the run stays pending
    it never returns nor raises, however long it runs, it retrieves the
    run again and again, and the time it has slept after [n]
    retrievals is [2 n] seconds. *)
Theorem wait_for_run_completion_unbounded (observed : nat -> run)
    (thread_id run_id : string) :
  (forall k, pending (observed k)) ->
  let wait := wait_for_run_completion thread_id run_id in
  let start := {| retrievals := 0; effects := [] |} in
  (forall fuel, (exec observed fuel wait start).2 = None) /\
  (forall n,
      retrievals (exec observed (4 * n) wait start).1 = n /\
      total_sleep (effects (exec observed (4 * n) wait start).1)
      = 2 * Z.of_nat n).
Proof.
  intros Hpending wait start. split.
  - intros fuel. apply (exec_waiting_none observed thread_id run_id fuel);
      [done | lia].
  - intros n. replace (4 * n)%nat with (4 * n + 0)%nat by lia.
    subst wait. rewrite exec_waiting by done.
    cbn [exec fst retrievals effects start app].
    split; [done | apply total_sleep_waiting].
Qed.

Lemma wait_for_run_completion_unbounded_witness :
  (exec stuck_runs 1000 (wait_for_run_completion "thread_1" "run_1")
     {| retrievals := 0; effects := [] |}).2 = None.
Proof.
  apply (wait_for_run_completion_unbounded stuck_runs "thread_1" "run_1").
  intros k. pending_status.
Defined.

End ThreadDemoMore.

Section Transcript.
Import ThreadTranscript.

Lemma display_loop_all (messages : list thread_message) :
  forallb has_content messages = true ->
  display_loop messages = (map transcript_line messages, Returned).
Proof.
  induction messages as [|m rest IH]; [done|]. cbn [forallb].
  intros [Hm Hrest]%andb_prop. cbn [display_loop map].
  rewrite (IH Hrest). unfold transcript_line, first_text, has_content in *.
  by destruct (content m) as [|[value | str] more].
Qed.

Lemma display_loop_stops (shown rest : list thread_message)
    (m : thread_message) :
  forallb has_content shown = true -> content m = [] ->
  display_loop (shown ++ m :: rest) = (map transcript_line shown, IndexError).
Proof.
  intros Hshown Hm. induction shown as [|m' shown IH].
  - cbn [app display_loop map]. by rewrite Hm.
  - cbn [forallb] in Hshown. apply andb_prop in Hshown as [Hm' Hshown].
    cbn [app display_loop map]. rewrite (IH Hshown).
    unfold transcript_line, first_text, has_content in *.
    by destruct (content m') as [|[value | str] more].
Qed.

Lemma forallb_rev {A : Type} (f : A -> bool) (l : list A) :
  forallb f (rev l) = forallb f l.
Proof.
  induction l as [|x l IH]; [done|]. cbn [rev forallb].
  rewrite forallb_app, IH. cbn [forallb]. by destruct (f x), (forallb f l).
Qed.

(** X21. When every message has content, [display_message_data] prints
    one line per message, last message of the list first, each with
    the role in capitals before the first block of its content; the
    transcript of two lists put end to end is the transcript of the
    second followed by that of the first. *)
Theorem display_message_data_lines (data : list thread_message) :
  forallb has_content data = true ->
  display_message_data data = (rev (map transcript_line data), Returned) /\
  length (display_message_data data).1 = length data /\
  forall older,
    forallb has_content older = true ->
    (display_message_data (data ++ older)).1
    = (display_message_data older).1 ++ (display_message_data data).1.
Proof.
  intros Hdata.
  assert (Hall : forall l, forallb has_content l = true ->
            display_message_data l = (rev (map transcript_line l), Returned)).
  { intros l Hl. unfold display_message_data.
    rewrite display_loop_all by by rewrite forallb_rev.
    by rewrite map_rev. }
  split; [by apply Hall|]. split.
  - rewrite (Hall _ Hdata). cbn [fst]. by rewrite length_rev, length_map.
  - intros older Holder. rewrite (Hall data), (Hall older) by done.
    rewrite Hall by (rewrite forallb_app; by rewrite Hdata, Holder).
    cbn [fst]. by rewrite map_app, rev_app_distr.
Qed.

Lemma display_message_data_lines_witness :
  display_message_data [answer; question]
  = (["USER: How long?"; "ASSISTANT: Ten years."], Returned).
Proof.
  exact (proj1 (display_message_data_lines [answer; question] eq_refl)).
Defined.

(** X22. A message without content stops the transcript with
    [IndexError]: the messages that follow it in the list have been
    printed, those before it never are. *)
Theorem display_message_data_empty_content (before after : list thread_message)
    (m : thread_message) :
  content m = [] ->
  forallb has_content after = true ->
  display_message_data (before ++ m :: after)
  = (rev (map transcript_line after), IndexError).
Proof.
  intros Hm Hafter. unfold display_message_data.
  rewrite rev_app_distr. cbn [rev]. rewrite <- app_assoc. cbn [app].
  rewrite display_loop_stops; [|by rewrite forallb_rev | done].
  by rewrite map_rev.
Qed.

Lemma display_message_data_empty_content_witness :
  display_message_data ([answer] ++ hollow :: [question])
  = (["USER: How long?"], IndexError).
Proof.
  exact (display_message_data_empty_content [answer] [question] hollow
           eq_refl eq_refl).
Defined.

End Transcript.

